(** * go_learning: properties of the teaching examples

    A shallow embedding of the functions of the repository that carry a
    checkable contract: [divide], [safeDivide] and [validateEmail] of the
    [functions] package, [fibonacci] and [poolWorker] of the
    [concurrency] package, the mutex-protected counter, the menu loop of
    [main.go], and the route table and rate limiter of the [backend]
    package. *)

From Stdlib Require Import ZArith Lia String Ascii List Bool.
From Stdlib Require Import Floats.SpecFloat.
From stdpp Require Import gmap strings list pretty.

Local Open Scope Z_scope.

(** ** The Go run-time model *)

Module Go.

(** A call either returns or panics with a run-time error. *)
Inductive outcome (A : Type) : Type :=
| Returns (a : A)
| Panics (msg : string).
Arguments Returns {A} a.
Arguments Panics {A} msg.

#[global] Instance outcome_ret : MRet outcome := fun A a => Returns a.
#[global] Instance outcome_bind : MBind outcome := fun A B k m =>
  match m with
  | Returns a => k a
  | Panics msg => Panics msg
  end.

(** [int] is the 64-bit two's-complement integer of the usual targets. *)
Definition int_bits : Z := 64.
Definition min_int : Z := - 2 ^ (int_bits - 1).
Definition max_int : Z := 2 ^ (int_bits - 1) - 1.

Definition is_int (x : Z) : Prop := min_int <= x <= max_int.

(** Wrap-around of an arithmetic result into the range of [int]. *)
Definition wrap (x : Z) : Z :=
  (x + 2 ^ (int_bits - 1)) mod 2 ^ int_bits - 2 ^ (int_bits - 1).

Definition int_add (x y : Z) : Z := wrap (x + y).
Definition int_sub (x y : Z) : Z := wrap (x - y).
Definition int_mul (x y : Z) : Z := wrap (x * y).

(** [x / y] truncates toward zero and panics on a zero divisor; the
    quotient of the most negative value by -1 wraps. *)
Definition int_div (x y : Z) : outcome Z :=
  if y =? 0 then Panics "runtime error: integer divide by zero"
  else Returns (wrap (Z.quot x y)).

(** [x % y] has the sign of the dividend and panics on a zero divisor. *)
Definition int_rem (x y : Z) : outcome Z :=
  if y =? 0 then Panics "runtime error: integer divide by zero"
  else Returns (wrap (Z.rem x y)).

(** [error]: [None] is the nil error, [Some msg] is [errors.New(msg)]. *)
Definition error : Type := option string.
Definition nil : error := None.
Definition errors_New (msg : string) : error := Some msg.

(** [float64] values are IEEE 754 binary64 numbers. *)
Definition prec : Z := 53.
Definition emax : Z := 1024.
Definition float64 : Type := spec_float.
Definition float_zero : float64 := S754_zero false.
Definition float_eq (x y : float64) : bool := SFeqb x y.
Definition float_div (x y : float64) : float64 := SFdiv prec emax x y.

End Go.

(** ** Package functions *)

Module Functions.
Import Go.

(** [divide] of functions.go: two results, no guard on the divisor. *)
Definition divide (dividend divisor : Z) : outcome (Z * Z) :=
  quotient ← int_div dividend divisor;
  remainder ← int_rem dividend divisor;
  mret (quotient, remainder).

(** [safeDivide] of functions.go. *)
Definition safeDivide (a b : float64) : float64 * error :=
  if float_eq b float_zero
  then (float_zero, errors_New "division by zero")
  else (float_div a b, nil).

End Functions.

(** [strings.HasPrefix], [strings.Index] and [strings.Contains] on byte
    strings. *)
Module Strings.

Fixpoint HasPrefix (s prefix : string) : bool :=
  match prefix, s with
  | EmptyString, _ => true
  | String _ _, EmptyString => false
  | String c prefix', String d s' =>
      if Ascii.eqb c d then HasPrefix s' prefix' else false
  end.

(** Index of the first occurrence of [substr] in [s], counted from [i]; -1
    when there is none. *)
Fixpoint index_from (i : Z) (s substr : string) : Z :=
  if HasPrefix s substr then i
  else match s with
       | EmptyString => -1
       | String _ s' => index_from (i + 1) s' substr
       end.

Definition Index (s substr : string) : Z := index_from 0 s substr.

Definition Contains (s substr : string) : bool := 0 <=? Index s substr.

End Strings.

Module Validation.
Import Go.

(** [validateEmail] of functions.go. *)
Definition validateEmail (email : string) : error :=
  if negb (Strings.Contains email "@") then
    errors_New "email must contain @ symbol"
  else if negb (Strings.Contains email ".") then
    errors_New "email must contain domain extension"
  else nil.

End Validation.

(** ** The worker pool of the concurrency package *)

Module WorkerPool.
Import Go.

(** [fibonacci] recurses on [n-1] and [n-2]; [depth] bounds the nesting of
    the calls, and a call with [n <= 1] needs none. *)
Fixpoint fibonacci_rec (depth : nat) (n : Z) : Z :=
  if n <=? 1 then n
  else match depth with
       | O => n
       | S d =>
           int_add (fibonacci_rec d (int_sub n 1)) (fibonacci_rec d (int_sub n 2))
       end.

(** [fibonacci] of goroutines_channels.go: the calls nest at most [n] deep. *)
Definition fibonacci (n : Z) : Z := fibonacci_rec (Z.to_nat n) n.

(** What a worker does, in order: formatted output, a pause, and a send on
    the [results] channel. *)
Inductive action : Type :=
| Printf (format : string) (args : list Z)
| Sleep (nanoseconds : Z)
| Send (result : Z).

Definition Millisecond : Z := 1000000.

Definition newline : string := String (ascii_of_nat 10) EmptyString.

(** One iteration of the loop of [poolWorker], for the job received and
    the value [r] drawn by [rand.Intn(300)]. *)
Definition poolWorker_body (id r job : Z) : list action :=
  let result := fibonacci job in
  [ Printf ("  👷 Worker %d: Processing job %d" ++ newline) [id; job];
    Sleep (int_mul (int_add r 200) Millisecond);
    Send result;
    Printf ("  ✅ Worker %d: Job %d completed (result: %d)" ++ newline)
           [id; job; result] ].

(** [poolWorker] of goroutines_channels.go, ranging over the jobs it
    receives until the channel is closed; [rnd k] is the k-th random draw. *)
Fixpoint poolWorker (id : Z) (rnd : nat -> Z) (k : nat) (jobs : list Z)
  : list action :=
  match jobs with
  | [] => []
  | job :: jobs' =>
      poolWorker_body id (rnd k) job ++ poolWorker id rnd (S k) jobs'
  end.

(** The values a sequence of actions puts on the [results] channel. *)
Fixpoint sent (acts : list action) : list Z :=
  match acts with
  | [] => []
  | Send v :: acts' => v :: sent acts'
  | _ :: acts' => sent acts'
  end.

End WorkerPool.

(** ** The mutex-protected counter *)

Module Counter.
Import Go.

(** Program points of [increment]: the loop test, [mu.Lock()], the read
    and the write of [counter++], [mu.Unlock()], [i++], and the return. *)
Inductive point : Type :=
| LoopTest | Lock | Load | Store | Unlock | Next | Done.

#[global] Instance point_eq_dec : EqDecision point.
Proof. solve_decision. Defined.

(** A goroutine running [increment]: its program point, its loop variable
    [i] and the value it has read for [counter++]. *)
Record goroutine : Type := Goroutine {
  at_point : point;
  loop_i : Z;
  loaded : Z
}.

(** The package-level [counter] and [mu], and the goroutines. *)
Record state : Type := State {
  counter : Z;
  mu_locked : bool;
  goroutines : list goroutine
}.

Definition iterations : Z := 1000.
Definition num_goroutines : nat := 5.

(** [main] starts the goroutines one after the other; one that is not
    started yet is one that has not taken its first step. *)
Definition init : state :=
  State 0 false (replicate num_goroutines (Goroutine LoopTest 0 0)).

(** One step of goroutine [t]; [None] when it cannot move: it has
    returned, or it waits for the mutex. *)
Definition step (t : nat) (s : state) : option state :=
  g ← goroutines s !! t;
  match at_point g with
  | LoopTest =>
      let p := if loop_i g <? iterations then Lock else Done in
      Some (State (counter s) (mu_locked s)
                  (<[t := Goroutine p (loop_i g) (loaded g)]> (goroutines s)))
  | Lock =>
      if mu_locked s then None
      else Some (State (counter s) true
                       (<[t := Goroutine Load (loop_i g) (loaded g)]> (goroutines s)))
  | Load =>
      Some (State (counter s) (mu_locked s)
                  (<[t := Goroutine Store (loop_i g) (counter s)]> (goroutines s)))
  | Store =>
      Some (State (int_add (loaded g) 1) (mu_locked s)
                  (<[t := Goroutine Unlock (loop_i g) (loaded g)]> (goroutines s)))
  | Unlock =>
      Some (State (counter s) false
                  (<[t := Goroutine Next (loop_i g) (loaded g)]> (goroutines s)))
  | Next =>
      Some (State (counter s) (mu_locked s)
                  (<[t := Goroutine LoopTest (int_add (loop_i g) 1) (loaded g)]>
                     (goroutines s)))
  | Done => None
  end.

(** A run under a schedule: the goroutine to move at each step. A schedule
    that picks a goroutine that cannot move is not a run. *)
Fixpoint run (schedule : list nat) (s : state) : option state :=
  match schedule with
  | [] => Some s
  | t :: schedule' => s' ← step t s; run schedule' s'
  end.

(** Every goroutine has returned from [increment]. *)
Definition all_done (s : state) : bool :=
  forallb (fun g => bool_decide (at_point g = Done)) (goroutines s).

(** The schedule that lets each goroutine run to its end in turn: six
    steps an iteration and the last loop test. *)
Definition sequential_schedule : list nat :=
  concat (map (fun t => replicate (6 * 1000 + 1) t) (seq 0 num_goroutines)).

(** The increments of [counter] that a goroutine has completed: one for
    each finished turn of its loop, and one more once it has written. *)
Definition increments_of (g : goroutine) : Z :=
  match at_point g with
  | Unlock | Next => loop_i g + 1
  | _ => loop_i g
  end.

(** 1 for a goroutine between [mu.Lock()] and [mu.Unlock()]. *)
Definition holds_mutex (g : goroutine) : Z :=
  match at_point g with
  | Load | Store | Unlock => 1
  | _ => 0
  end.

Definition sum_over (f : goroutine -> Z) (gs : list goroutine) : Z :=
  foldr (fun g acc => f g + acc) 0 gs.

(** A goroutine is where its loop variable allows it to be, and the
    value it is about to write is the current one. *)
Definition well_placed (c : Z) (g : goroutine) : Prop :=
  0 <= loop_i g <= iterations /\
  (at_point g <> LoopTest -> at_point g <> Done -> loop_i g < iterations) /\
  (at_point g = Done -> loop_i g = iterations) /\
  (at_point g = Store -> loaded g = c).

(** The invariant of the runs: the counter is the number of completed
    increments, and the mutex is held by one goroutine at most. *)
Record invariant (s : state) : Prop := Invariant {
  inv_length : length (goroutines s) = num_goroutines;
  inv_counter : counter s = sum_over increments_of (goroutines s);
  inv_mutex :
    sum_over holds_mutex (goroutines s) = if mu_locked s then 1 else 0;
  inv_each : Forall (well_placed (counter s)) (goroutines s)
}.

End Counter.

(** ** The menu of main.go *)

Module Menu.

Definition newline : string := String (ascii_of_nat 10) EmptyString.

(** The seven learning modules behind the menu entries 1 to 7:
    [runBasicSyntax], [runControlStructures], [runFunctions],
    [runStructsInterfaces], [runBackendConcepts], [runConcurrency] and
    [runAllExamples]. *)
Inductive module : Type :=
| BasicSyntax | ControlStructures | Functions | StructsInterfaces
| BackendConcepts | Concurrency | AllExamples.

(** The terminal: the lines still to be read, one for each read of
    standard input, and the text written so far. *)
Record world : Type := World {
  stdin : list string;
  stdout : list string
}.

Definition Print (text : string) (w : world) : world :=
  World (stdin w) (stdout w ++ [text]).

Definition Println (text : string) (w : world) : world :=
  Print (text ++ newline) w.

(** A read up to the end of the line; at the end of the input it yields
    the empty string, and the error is dropped as the callers do. *)
Definition ReadLine (w : world) : string * world :=
  match stdin w with
  | [] => (EmptyString, w)
  | line :: rest => (line, World rest (stdout w))
  end.

(** The result of one turn of the loop of [main]. *)
Inductive control : Type :=
| Break (w : world)
| Continue (w : world).

Definition world_of (c : control) : world :=
  match c with Break w => w | Continue w => w end.

Section Program.

(** [strings.TrimSpace] of the standard library. *)
Variable TrimSpace : string -> string.

(** What a learning module writes, and what it leaves of the input (some
    modules ask a question), when it is started in a given world. *)
Variable module_output : module -> world -> list string.
Variable module_input : module -> world -> list string.

(** Running a learning module: its output comes after what is written
    already. *)
Definition run (m : module) (w : world) : world :=
  World (module_input m w) (stdout w ++ module_output m w).

Definition displayMenu (w : world) : world :=
  let w := Println "📚 =========================" w in
  let w := Println "   LEARNING MENU" w in
  let w := Println "📚 =========================" w in
  let w := Println "1. 🏗️  Basic Syntax & Data Types" w in
  let w := Println "2. 🔄 Control Structures & Collections" w in
  let w := Println "3. ⚙️  Functions & Error Handling" w in
  let w := Println "4. 🏛️  Structs & Interfaces" w in
  let w := Println "5. 🌐 Backend HTTP Server" w in
  let w := Println "6. 🚦 Concurrency & Goroutines" w in
  let w := Println "7. 📖 All Examples (Full Demo)" w in
  let w := Println "0. 🚪 Exit" w in
  Println "📚 =========================" w.

Definition displayWelcome (w : world) : world :=
  let w := Println "🚀 ============================================== 🚀" w in
  let w := Println "   Welcome to Go Learning for Backend Engineers" w in
  let w := Println "🚀 ============================================== 🚀" w in
  let w := Println "" w in
  let w := Println "This interactive application demonstrates:" w in
  let w := Println "✅ Go syntax and language fundamentals" w in
  let w := Println "✅ Functions and error handling patterns" w in
  let w := Println "✅ Structs, interfaces, and composition" w in
  let w := Println "✅ Backend engineering concepts" w in
  let w := Println "✅ Concurrency with goroutines and channels" w in
  let w := Println "✅ Real-world patterns and best practices" w in
  Println "" w.

Definition getUserInput (prompt : string) (w : world) : string * world :=
  let w := Print prompt w in
  let '(input, w) := ReadLine w in
  (TrimSpace input, w).

Definition invalid_choice : string :=
  "❌ Invalid choice. Please select a number from 0-7.".

Definition executeChoice (choice : string) (w : world) : world :=
  let w := Println "" w in
  if String.eqb choice "1" then run BasicSyntax w
  else if String.eqb choice "2" then run ControlStructures w
  else if String.eqb choice "3" then run Functions w
  else if String.eqb choice "4" then run StructsInterfaces w
  else if String.eqb choice "5" then run BackendConcepts w
  else if String.eqb choice "6" then run Concurrency w
  else if String.eqb choice "7" then run AllExamples w
  else Println invalid_choice w.

(** The body of the [for] loop of [main]. *)
Definition iteration (w : world) : control :=
  let w := displayMenu w in
  let '(choice, w) := getUserInput "Enter your choice (1-7, or 0 to exit): " w in
  if String.eqb choice "0" then
    Break (Println (newline ++ "👋 Thank you for learning Go! Happy coding!") w)
  else
    let w := executeChoice choice w in
    let w := Println (newline ++ "Press Enter to continue...") w in
    let '(_, w) := ReadLine w in
    Continue w.

(** The loop of [main], for at most [turns] turns: [None] when the loop
    is still running after them. *)
Fixpoint menu_loop (turns : nat) (w : world) : option world :=
  match turns with
  | O => None
  | S turns' =>
      match iteration w with
      | Break w' => Some w'
      | Continue w' => menu_loop turns' w'
      end
  end.

Definition main (turns : nat) (w : world) : option world :=
  menu_loop turns (displayWelcome w).

(** The choice the next turn of the loop reads. *)
Definition next_choice (w : world) : string :=
  TrimSpace (fst (ReadLine w)).

End Program.

(** The number under which [displayMenu] lists each learning module. *)
Definition menu_key (m : module) : string :=
  match m with
  | BasicSyntax => "1"
  | ControlStructures => "2"
  | Functions => "3"
  | StructsInterfaces => "4"
  | BackendConcepts => "5"
  | Concurrency => "6"
  | AllExamples => "7"
  end.

(** The choices that the menu offers: the exit and the seven modules. *)
Definition offered : list string :=
  ["0"; "1"; "2"; "3"; "4"; "5"; "6"; "7"]%string.

(** The text of the menu, as [displayMenu] writes it. *)
Definition menu_text : list string :=
  stdout (displayMenu (World [] [])).

Definition prompt : string := "Enter your choice (1-7, or 0 to exit): ".

Definition goodbye : string :=
  newline ++ "👋 Thank you for learning Go! Happy coding!".

Definition press_enter : string := newline ++ "Press Enter to continue...".

End Menu.

(** ** The backend package *)

Module Backend.
Import Go.

(** The handlers of http_server.go that are given to the mux. *)
Inductive handler : Type :=
| homeHandler | healthHandler | usersHandler | userByIDHandler.

(** [ServeMux.HandleFunc]: an empty pattern and a pattern that is already
    registered are refused by a panic. *)
Definition HandleFunc (pattern : string) (h : handler)
  (mux : gmap string handler) : outcome (gmap string handler) :=
  if String.eqb pattern "" then Panics "http: invalid pattern"
  else match mux !! pattern with
       | Some _ => Panics ("http: multiple registrations for " ++ pattern)
       | None => Returns (<[pattern := h]> mux)
       end.

(** The mux that [HTTPServerExamples] builds. *)
Definition HTTPServerExamples_mux : outcome (gmap string handler) :=
  mux ← HandleFunc "/" homeHandler ∅;
  mux ← HandleFunc "/api/health" healthHandler mux;
  mux ← HandleFunc "/api/users" usersHandler mux;
  HandleFunc "/api/users/" userByIDHandler mux.

(** The patterns registered on a mux. *)
Definition routes (mux : outcome (gmap string handler)) : gset string :=
  match mux with
  | Returns m => dom m
  | Panics _ => ∅
  end.

(** Instants are readings of the monotonic clock in nanoseconds;
    [Time.Sub] saturates at the bounds of [Duration]. *)
Definition Sub (t u : Z) : Z :=
  let d := t - u in
  if d <? min_int then min_int
  else if max_int <? d then max_int
  else d.

Definition Second : Z := 1000000000.
Definition Minute : Z := 60 * Second.

Definition StatusTooManyRequests : Z := 429.

(** What the rate limiter does with a request: it answers with
    [http.Error], or it hands the request to the next handler. *)
Inductive verdict : Type :=
| Error (message : string) (code : Z)
| ServeNext.

(** The loop that keeps the requests of the last minute. *)
Fixpoint clean (now : Z) (reqTimes validRequests : list Z) : list Z :=
  match reqTimes with
  | [] => validRequests
  | reqTime :: reqTimes' =>
      clean now reqTimes'
        (if Sub now reqTime <=? Minute then validRequests ++ [reqTime]
         else validRequests)
  end.

(** The handler that [rateLimitMiddleware] returns, on the [requests] map
    it closes over, for a request from [clientIP] at the instant [now]. *)
Definition rateLimit (requests : gmap string (list Z)) (clientIP : string)
  (now : Z) : gmap string (list Z) * verdict :=
  let requests :=
    match requests !! clientIP with
    | Some reqTimes => <[clientIP := clean now reqTimes []]> requests
    | None => requests
    end in
  if 10 <=? Z.of_nat (length (default [] (requests !! clientIP))) then
    (requests, Error "Rate limit exceeded" StatusTooManyRequests)
  else
    (<[clientIP := default [] (requests !! clientIP) ++ [now]]> requests,
     ServeNext).

(** The map after a sequence of requests, from the empty map that
    [rateLimitMiddleware] makes. *)
Definition serve (history : list (string * Z)) : gmap string (list Z) :=
  foldl (fun requests r => fst (rateLimit requests r.1 r.2)) ∅ history.

(** The recorded instants of a client; none for an unknown client. *)
Definition recorded (requests : gmap string (list Z)) (clientIP : string)
  : list Z :=
  default [] (requests !! clientIP).

(** No client has more than ten recorded instants. *)
Definition bounded (requests : gmap string (list Z)) : Prop :=
  forall ip, (length (recorded requests ip) <= 10)%nat.

End Backend.

(** ** More of the functions package *)

Module Collections.
Import Go.

(** [addNumbers] of functions.go. *)
Definition addNumbers (a b : Z) : Z := int_add a b.

(** The loop of [sum]: [total += num] for each number in turn. *)
Fixpoint sum_loop (total : Z) (numbers : list Z) : Z :=
  match numbers with
  | [] => total
  | num :: numbers' => sum_loop (int_add total num) numbers'
  end.

(** [sum] of functions.go. *)
Definition sum (numbers : list Z) : Z := sum_loop 0 numbers.

(** [multiply] of functions.go. *)
Definition multiply (a b : Z) : Z := int_mul a b.

(** The loop of [applyOperation]: [result[i] = operation(num)]. *)
Fixpoint applyOperation_loop (operation : Z -> Z) (i : nat)
  (numbers result : list Z) : list Z :=
  match numbers with
  | [] => result
  | num :: numbers' =>
      applyOperation_loop operation (S i) numbers' (<[i := operation num]> result)
  end.

(** [applyOperation] of functions.go: [result] starts as
    [make([]int, len(numbers))]. *)
Definition applyOperation (numbers : list Z) (operation : Z -> Z) : list Z :=
  applyOperation_loop operation 0 numbers (replicate (length numbers) 0).

(** [createMultiplier] of functions.go: the closure over [factor]. *)
Definition createMultiplier (factor : Z) : Z -> Z :=
  fun x => int_mul x factor.

End Collections.

Module Users.
Import Go.

Definition newline : string := String (ascii_of_nat 10) EmptyString.

(** [User] of functions.go; a [*User] is an [option User], nil being
    [None]. *)
Record User : Type := mkUser {
  Username : string;
  Email : string;
  ID : Z
}.

(** [generateUserID], for the reading [unix] of [time.Now().Unix()]. *)
Definition generateUserID (unix : Z) : Z := wrap (Z.rem unix 10000).

(** [createUser] of functions.go; [fmt.Errorf] with [%w] gives the error
    whose text is the format filled with the text of the wrapped error. *)
Definition createUser (unix : Z) (username email : string)
  : option User * error :=
  if String.eqb username "" then
    (None, errors_New "username cannot be empty")
  else
    match Validation.validateEmail email with
    | Some err => (None, errors_New ("invalid email: " ++ err))
    | None => (Some (mkUser username email (generateUserID unix)), nil)
    end.

(** [processUserData] of functions.go: what it prints, and its error. *)
Definition processUserData (user : option User) : list string * error :=
  match user with
  | None => ([], errors_New "user cannot be nil")
  | Some u =>
      if Z.of_nat (String.length (Username u)) <? 3 then
        ([], errors_New ("processing failed for user " ++ Username u
                         ++ ": " ++ "username too short"))
      else
        ([("  ‚úÖ Successfully processed user: " ++ Username u ++ newline)%string], nil)
  end.

(** The loop of [batchProcess], from the index [i] on. *)
Fixpoint batchProcess_loop (i : Z) (items results warnings : list string)
  : list string * list string :=
  match items with
  | [] => (results, warnings)
  | item :: items' =>
      if String.eqb item "" then
        batchProcess_loop (i + 1) items' results
          (warnings ++ [("empty item at index " ++ pretty i)%string])
      else
        let processed := ("processed_" ++ item)%string in
        let results := results ++ [processed] in
        let warnings :=
          if Z.of_nat (String.length item) <? 4
          then warnings ++ [("short item name: " ++ item)%string]
          else warnings in
        batchProcess_loop (i + 1) items' results warnings
  end.

(** [batchProcess] of functions.go. *)
Definition batchProcess (items : list string)
  : list string * list string * error :=
  if Z.of_nat (length items) =? 0 then
    ([], [], errors_New "no items to process")
  else
    let '(results, warnings) := batchProcess_loop 0 items [] [] in
    (results, warnings, nil).

(** [Server] of functions.go and its methods; a method gives the server
    as it leaves it and the text it prints. *)
Record Server : Type := mkServer {
  Name : string;
  Port : Z;
  Running : bool
}.

Definition Start (s : Server) : Server * list string :=
  (mkServer (Name s) (Port s) true,
   [("  üöÄ Server " ++ Name s ++ " started on port " ++ pretty (Port s) ++ newline)%string]).

Definition Stop (s : Server) : Server * list string :=
  (mkServer (Name s) (Port s) false,
   [("  üõë Server " ++ Name s ++ " stopped" ++ newline)%string]).

Definition HandleRequest (request : string) (s : Server)
  : Server * list string :=
  if negb (Running s) then
    (s, [("  ‚ùå Cannot handle request: server is not running" ++ newline)%string])
  else
    (s, [("  üì® " ++ Name s ++ " handling: " ++ request ++ newline)%string]).

Definition SetPort (port : Z) (s : Server) : Server * list string :=
  (mkServer (Name s) port (Running s),
   [("  üîß " ++ Name s ++ " port updated to " ++ pretty port ++ newline)%string]).

Definition GetStatus (s : Server) : string :=
  if Running s then ("Running on port " ++ pretty (Port s))%string
  else "Stopped".

(** A call of one of the methods that change or use the server. *)
Inductive call : Type :=
| CallStart
| CallStop
| CallHandleRequest (request : string)
| CallSetPort (port : Z).

Definition perform (c : call) (s : Server) : Server * list string :=
  match c with
  | CallStart => Start s
  | CallStop => Stop s
  | CallHandleRequest request => HandleRequest request s
  | CallSetPort port => SetPort port s
  end.

(** A sequence of calls on one server, with all that is printed. *)
Fixpoint perform_all (cs : list call) (s : Server) : Server * list string :=
  match cs with
  | [] => (s, [])
  | c :: cs' =>
      let '(s1, out1) := perform c s in
      let '(s2, out2) := perform_all cs' s1 in
      (s2, out1 ++ out2)
  end.

End Users.

(** ** The handlers and the middleware of the backend package *)

Module Http.
Import Go.

Definition newline : string := String (ascii_of_nat 10) EmptyString.
Definition tab : string := String (ascii_of_nat 9) EmptyString.
Definition quote : string := String (ascii_of_nat 34) EmptyString.

(** The constants of net/http that the handlers use. *)
Definition MethodGet : string := "GET".
Definition MethodPost : string := "POST".
Definition MethodOptions : string := "OPTIONS".
Definition StatusOK : Z := 200.
Definition StatusCreated : Z := 201.
Definition StatusBadRequest : Z := 400.
Definition StatusUnauthorized : Z := 401.
Definition StatusNotFound : Z := 404.
Definition StatusMethodNotAllowed : Z := 405.
Definition StatusInternalServerError : Z := 500.

(** A reading of [time.Now()]: the seconds since 1970 that [Unix] gives,
    and the monotonic reading in nanoseconds that [Sub] compares. *)
Record Time : Type := mkTime {
  Unix : Z;
  monotonic : Z
}.

(** The response types of http_server.go. *)
Record HealthResponse : Type := mkHealthResponse {
  Status : string;
  Timestamp : Time;
  Version : string;
  Uptime : string;
  Services : gmap string string
}.

Record User : Type := mkUser {
  ID : Z;
  Name : string;
  Email : string;
  Role : string
}.

Record CreateUserRequest : Type := mkCreateUserRequest {
  ReqName : string;
  ReqEmail : string
}.

Record UsersResponse : Type := mkUsersResponse {
  Users : list User;
  Total : Z;
  Page : Z;
  Limit : Z
}.

(** What is written to a response: text, or the JSON encoding of a value
    followed by a newline. *)
Inductive payload : Type :=
| JHealth (h : HealthResponse)
| JUsers (r : UsersResponse)
| JUser (u : User)
| JMap (m : gmap string string).

Inductive chunk : Type :=
| Text (s : string)
| Json (v : payload).

(** The part of a request that the handlers read: [r.Header.Get] of
    Authorization is the empty string when the header is absent. *)
Record Request : Type := mkRequest {
  Method : string;
  URLPath : string;
  RemoteAddr : string;
  Authorization : string;
  Body : string
}.

(** An [http.ResponseWriter]: the header map, the status and the header
    as sent by the first [WriteHeader], and the body. Every handler here
    sets Content-Type before it writes, so the sniffing of the content
    type has no part. *)
Record ResponseWriter : Type := mkWriter {
  header : gmap string string;
  status : option Z;
  sent_header : gmap string string;
  body : list chunk
}.

Definition Header_Set (key value : string) (w : ResponseWriter)
  : ResponseWriter :=
  mkWriter (<[key := value]> (header w)) (status w) (sent_header w) (body w).

(** The first [WriteHeader] sends the status and the header; a later one
    is superfluous and changes nothing. *)
Definition WriteHeader (code : Z) (w : ResponseWriter) : ResponseWriter :=
  match status w with
  | Some _ => w
  | None => mkWriter (header w) (Some code) (header w) (body w)
  end.

(** [Write] sends the status 200 first when none has been sent. *)
Definition Write (c : chunk) (w : ResponseWriter) : ResponseWriter :=
  let w := WriteHeader StatusOK w in
  mkWriter (header w) (status w) (sent_header w) (body w ++ [c]).

(** [http.Error]. *)
Definition Error (error : string) (code : Z) (w : ResponseWriter)
  : ResponseWriter :=
  let w := Header_Set "Content-Type" "text/plain; charset=utf-8" w in
  let w := Header_Set "X-Content-Type-Options" "nosniff" w in
  let w := WriteHeader code w in
  Write (Text (error ++ newline)) w.

(** What [log.Printf] is given by the logging middleware. *)
Inductive log_entry : Type :=
| Started (method path remoteAddr : string)
| Completed (method path : string) (duration : Z).

(** What the handlers share: the clock, read by [time.Now()], the
    [requests] map of the rate limiter, and the log. *)
Record server : Type := mkServer {
  clock : nat -> Time;
  reads : nat;
  requests : gmap string (list Z);
  log : list log_entry
}.

Definition time_Now (s : server) : Time * server :=
  (clock s (reads s),
   mkServer (clock s) (S (reads s)) (requests s) (log s)).

Definition log_Printf (e : log_entry) (s : server) : server :=
  mkServer (clock s) (reads s) (requests s) (log s ++ [e]).

(** An [http.Handler]. *)
Definition Handler : Type :=
  Request -> server -> ResponseWriter -> server * ResponseWriter.

(** [strings.TrimPrefix]. *)
Fixpoint drop_bytes (n : nat) (s : string) : string :=
  match n, s with
  | O, _ => s
  | S _, EmptyString => EmptyString
  | S n', String _ s' => drop_bytes n' s'
  end.

Definition TrimPrefix (s prefix : string) : string :=
  if Strings.HasPrefix s prefix then drop_bytes (String.length prefix) s
  else s.

Definition home_html : string :=
  (newline ++ tab ++ "<html>" ++ newline ++
   tab ++ tab ++ "<head><title>Go Learning Backend</title></head>" ++ newline ++
   tab ++ tab ++ "<body>" ++ newline ++
   tab ++ tab ++ tab ++ "<h1>Welcome to Go Backend Development!</h1>" ++
   newline ++ tab ++ tab ++ tab ++
   "<p>This is a sample HTTP server built with Go.</p>" ++ newline ++ tab ++ tab ++
   tab ++ "<ul>" ++ newline ++ tab ++
   tab ++ tab ++ tab ++ "<li><a href=" ++
   quote ++ "/api/health" ++ quote ++ ">Health Check</a></li>" ++
   newline ++ tab ++ tab ++ tab ++
   tab ++ "<li><a href=" ++ quote ++ "/api/users" ++
   quote ++ ">Users API</a></li>" ++ newline ++ tab ++
   tab ++ tab ++ "</ul>" ++ newline ++
   tab ++ tab ++ "</body>" ++ newline ++
   tab ++ "</html>")%string.

(** [generateUserID] of http_server.go. *)
Definition generateUserID (s : server) : Z * server :=
  let '(now, s) := time_Now s in
  (wrap (Z.rem (Unix now) 10000), s).

Section Handlers.

(** [strconv.Atoi]. *)
Variable Atoi : string -> Z * error.

(** The decoding of a request body as a [CreateUserRequest]; [None] is a
    decoding error. *)
Variable Decode : string -> option CreateUserRequest.

(** Whether the JSON encoder can encode a value. *)
Variable encodable : payload -> bool.

(** [json.NewEncoder(w).Encode(v)]: nothing is written on an error. *)
Definition Encode (v : payload) (w : ResponseWriter)
  : ResponseWriter * error :=
  if encodable v then (Write (Json v) w, nil)
  else (w, errors_New "json: unsupported value").

Definition homeHandler : Handler := fun r s w =>
  let w := Header_Set "Content-Type" "text/html" w in
  (s, Write (Text home_html) w).

Definition healthHandler : Handler := fun r s w =>
  if negb (String.eqb (Method r) MethodGet) then
    (s, Error "Method not allowed" StatusMethodNotAllowed w)
  else
    let '(now, s) := time_Now s in
    let health :=
      mkHealthResponse "healthy" now "1.0.0" "24h30m"
        (<["database" := "connected"]>
           (<["cache" := "operational"]>
              (<["queue" := "running"]> ∅)))%string in
    let w := Header_Set "Content-Type" "application/json" w in
    let w := WriteHeader StatusOK w in
    let '(w, err) := Encode (JHealth health) w in
    match err with
    | Some _ =>
        (s, Error "Failed to encode response" StatusInternalServerError w)
    | None => (s, w)
    end.

Definition stored_users : list User :=
  [ mkUser 1 "Alice Johnson" "alice@example.com" "admin";
    mkUser 2 "Bob Smith" "bob@example.com" "user";
    mkUser 3 "Charlie Brown" "charlie@example.com" "user" ].

Definition handleGetUsers : Handler := fun r s w =>
  let users := stored_users in
  let response := mkUsersResponse users (Z.of_nat (length users)) 1 10 in
  let w := WriteHeader StatusOK w in
  (s, fst (Encode (JUsers response) w)).

Definition handleCreateUser : Handler := fun r s w =>
  match Decode (Body r) with
  | None => (s, Error "Invalid JSON" StatusBadRequest w)
  | Some createReq =>
      if String.eqb (ReqName createReq) "" then
        (s, Error "Name is required" StatusBadRequest w)
      else if String.eqb (ReqEmail createReq) "" then
        (s, Error "Email is required" StatusBadRequest w)
      else
        let '(id, s) := generateUserID s in
        let newUser := mkUser id (ReqName createReq) (ReqEmail createReq) "user" in
        let w := WriteHeader StatusCreated w in
        (s, fst (Encode (JUser newUser) w))
  end.

Definition usersHandler : Handler := fun r s w =>
  let w := Header_Set "Content-Type" "application/json" w in
  if String.eqb (Method r) MethodGet then handleGetUsers r s w
  else if String.eqb (Method r) MethodPost then handleCreateUser r s w
  else (s, Error "Method not allowed" StatusMethodNotAllowed w).

(** The map that [handleGetUserByID] looks the user up in. *)
Definition users_by_id : gmap Z User :=
  <[1 := mkUser 1 "Alice Johnson" "alice@example.com" "admin"]>
    (<[2 := mkUser 2 "Bob Smith" "bob@example.com" "user"]>
       (<[3 := mkUser 3 "Charlie Brown" "charlie@example.com" "user"]> ∅)).

Definition handleGetUserByID (userID : Z) : Handler := fun r s w =>
  match users_by_id !! userID with
  | None => (s, Error "User not found" StatusNotFound w)
  | Some user =>
      let w := WriteHeader StatusOK w in
      (s, fst (Encode (JUser user) w))
  end.

Definition userByIDHandler : Handler := fun r s w =>
  let path := TrimPrefix (URLPath r) "/api/users/" in
  if String.eqb path "" then
    (s, Error "User ID is required" StatusBadRequest w)
  else
    let '(userID, err) := Atoi path in
    match err with
    | Some _ => (s, Error "Invalid user ID" StatusBadRequest w)
    | None =>
        let w := Header_Set "Content-Type" "application/json" w in
        if String.eqb (Method r) MethodGet then handleGetUserByID userID r s w
        else (s, Error "Method not allowed" StatusMethodNotAllowed w)
    end.

Definition loggingMiddleware (next : Handler) : Handler := fun r s w =>
  let '(start, s) := time_Now s in
  let s := log_Printf (Started (Method r) (URLPath r) (RemoteAddr r)) s in
  let '(s, w) := next r s w in
  let '(now, s) := time_Now s in
  let duration := Backend.Sub (monotonic now) (monotonic start) in
  let s := log_Printf (Completed (Method r) (URLPath r) duration) s in
  (s, w).

Definition corsMiddleware (next : Handler) : Handler := fun r s w =>
  let w := Header_Set "Access-Control-Allow-Origin" "*" w in
  let w := Header_Set "Access-Control-Allow-Methods"
             "GET, POST, PUT, DELETE, OPTIONS" w in
  let w := Header_Set "Access-Control-Allow-Headers"
             "Content-Type, Authorization" w in
  if String.eqb (Method r) MethodOptions then
    (s, WriteHeader StatusOK w)
  else next r s w.

Definition authMiddleware (next : Handler) : Handler := fun r s w =>
  let authHeader := Authorization r in
  if negb (Strings.HasPrefix authHeader "Bearer ") then
    (s, Error "Unauthorized" StatusUnauthorized w)
  else
    let token := TrimPrefix authHeader "Bearer " in
    if negb (String.eqb token "valid-token-123") then
      (s, Error "Invalid token" StatusUnauthorized w)
    else next r s w.

(** The handler that [rateLimitMiddleware] returns, on the [requests] map
    of the server. *)
Definition rateLimitMiddleware (next : Handler) : Handler := fun r s w =>
  let clientIP := RemoteAddr r in
  let '(now, s) := time_Now s in
  let '(requests', verdict) :=
    Backend.rateLimit (requests s) clientIP (monotonic now) in
  let s := mkServer (clock s) (reads s) requests' (log s) in
  match verdict with
  | Backend.Error message code => (s, Error message code w)
  | Backend.ServeNext => next r s w
  end.

(** The handler of [MiddlewareExamples] and its three chains. *)
Definition handler : Handler := fun r s w =>
  let w := Header_Set "Content-Type" "application/json" w in
  let response : gmap string string :=
    <["message" := "Hello from protected endpoint!"]>
      (<["method" := Method r]> (<["path" := URLPath r]> ∅)) in
  (s, fst (Encode (JMap response) w)).

Definition protectedHandler : Handler :=
  loggingMiddleware (corsMiddleware (authMiddleware handler)).

Definition publicHandler : Handler :=
  loggingMiddleware (corsMiddleware handler).

Definition adminHandler : Handler :=
  loggingMiddleware
    (corsMiddleware (authMiddleware (rateLimitMiddleware handler))).

End Handlers.

(** A response writer on which nothing has been set or written. *)
Definition fresh : ResponseWriter := mkWriter ∅ None ∅ [].

End Http.

(** ** The requests that the rate limiter has let through *)

Module Limiter.

(** One request more: the map after it, and the log of the requests that
    were passed on to the next handler. *)
Definition record_request (st : gmap string (list Z) * list (string * Z))
  (r : string * Z) : gmap string (list Z) * list (string * Z) :=
  let '(requests', verdict) := Backend.rateLimit st.1 r.1 r.2 in
  (requests',
   match verdict with
   | Backend.ServeNext => st.2 ++ [r]
   | Backend.Error _ _ => st.2
   end).

Definition serve_log (history : list (string * Z))
  : gmap string (list Z) * list (string * Z) :=
  foldl record_request (∅, []) history.

(** The instants of the requests of a client that were passed on. *)
Definition served (history : list (string * Z)) (clientIP : string) : list Z :=
  map snd (filter (fun r => r.1 = clientIP) (serve_log history).2).

(** The clock does not go back from one request to the next. *)
Definition in_order (history : list (string * Z)) : Prop :=
  forall (i j : nat) (r r' : string * Z),
    (i <= j)%nat -> history !! i = Some r -> history !! j = Some r' ->
    r.2 <= r'.2.

End Limiter.

(** ** The progress of the goroutines of the counter *)

Module Progress.
Import Counter.

(** The steps that a goroutine still has to take: six for each turn of
    the loop that is left, and the last loop test. *)
Definition remaining (g : goroutine) : Z :=
  match at_point g with
  | LoopTest => 6 * (iterations - loop_i g) + 1
  | Lock => 6 * (iterations - loop_i g)
  | Load => 6 * (iterations - loop_i g) - 1
  | Store => 6 * (iterations - loop_i g) - 2
  | Unlock => 6 * (iterations - loop_i g) - 3
  | Next => 6 * (iterations - loop_i g) - 4
  | Done => 0
  end.

(** A goroutine is between [mu.Lock()] and [mu.Unlock()]. *)
Definition in_critical_section (g : goroutine) : Prop :=
  at_point g = Load \/ at_point g = Store \/ at_point g = Unlock.

End Progress.

(** ** The pipeline and the result collector of the concurrency package *)

Module Pipeline.
Import Go WorkerPool.

(** The loop of the goroutine of [generateNumbers], for at most [turns]
    turns: what it does, and whether it has closed [out]. *)
Fixpoint generateNumbers_loop (turns : nat) (i end_ : Z) : list action * bool :=
  if i <=? end_ then
    match turns with
    | O => ([], false)
    | S turns' =>
        let '(acts, closed) := generateNumbers_loop turns' (int_add i 1) end_ in
        ([Printf ("  📤 Generating: %d" ++ newline)%string [i]; Send i; Sleep (int_mul 100 Millisecond)] ++ acts,
         closed)
    end
  else ([], true).

(** [generateNumbers] of goroutines_channels.go. *)
Definition generateNumbers (turns : nat) (start end_ : Z) : list action * bool :=
  generateNumbers_loop turns start end_.

(** The goroutine of [squareNumbers], on the numbers it receives. *)
Fixpoint squareNumbers (received : list Z) : list action :=
  match received with
  | [] => []
  | n :: received' =>
      let squared := int_mul n n in
      [Printf ("  🔢 Squaring %d = %d" ++ newline)%string [n; squared]; Send squared; Sleep (int_mul 50 Millisecond)]
      ++ squareNumbers received'
  end.

(** The goroutine of [filterEven], on the numbers it receives. *)
Fixpoint filterEven (received : list Z) : list action :=
  match received with
  | [] => []
  | n :: received' =>
      (if wrap (Z.rem n 2) =? 0 then
         [Printf ("  ✅ Filtering (even): %d" ++ newline)%string [n]; Send n]
       else
         [Printf ("  ❌ Filtering (odd): %d" ++ newline)%string [n]])
      ++ [Sleep (int_mul 30 Millisecond)] ++ filterEven received'
  end.

(** What the loop of [PipelinePattern] receives from the last stage, for
    a generator from [start] to [end_]. *)
Definition pipeline_results (turns : nat) (start end_ : Z) : list Z :=
  let numbers := sent (fst (generateNumbers turns start end_)) in
  let squared := sent (squareNumbers numbers) in
  sent (filterEven squared).

End Pipeline.

Module Collector.
Import Go.

Definition newline : string := String (ascii_of_nat 10) EmptyString.

(** [Result] of goroutines_channels.go; a [time.Duration] is an int64
    of nanoseconds. *)
Record Result : Type := mkResult {
  JobID : Z;
  Output : string;
  Duration : Z
}.

(** An argument of [Printf], and a call of it. *)
Inductive arg : Type :=
| Int (z : Z)
| Str (s : string)
| Dur (d : Z).

Inductive printed : Type :=
| Printf (format : string) (args : list arg).

(** The loop of [resultCollector] over the results it receives: the
    final [collected] and [totalDuration], and what it prints. *)
Fixpoint resultCollector_loop (results : list Result)
  (expectedResults collected totalDuration : Z) : Z * Z * list printed :=
  match results with
  | [] => (collected, totalDuration, [])
  | result :: results' =>
      let collected := int_add collected 1 in
      let totalDuration := int_add totalDuration (Duration result) in
      let line :=
        Printf ("📥 Result %d: %s (took %v)" ++ newline)%string
          [Int (JobID result); Str (Output result); Dur (Duration result)] in
      if expectedResults <=? collected then
        (collected, totalDuration, [line])
      else
        let '(c, t, out) :=
          resultCollector_loop results' expectedResults collected totalDuration in
        (c, t, line :: out)
  end.

(** [resultCollector] of goroutines_channels.go. *)
Definition resultCollector (results : list Result) (expectedResults : Z)
  : outcome (list printed) :=
  let '(collected, totalDuration, out) :=
    resultCollector_loop results expectedResults 0 0 in
  avgDuration ← int_div totalDuration collected;
  mret (out ++ [Printf ("📊 Collected %d results, average duration: %v" ++ newline)%string [Int collected; Dur avgDuration]]).

End Collector.

(** ** The worker pools, as processes on their two channels *)

Module Pool.
Import Go.

(** A worker of the pool ([worker] of [ChannelExamples], [poolWorker] of
    [WorkerPoolPattern]): it waits for a job, it has received one and has
    its result to send, or it has left its loop. *)
Inductive worker_state : Type :=
| Idle
| Busy (job : Z)
| Exited.

(** The jobs that the main goroutine has still to send, the two buffered
    channels, the workers, and the results that the main goroutine has
    received. *)
Record state : Type := State {
  unsent : list Z;
  jobs : list Z;
  jobs_closed : bool;
  workers : list worker_state;
  results : list Z;
  collected : list Z
}.

Inductive actor : Type :=
| Main
| Worker (w : nat).

Section Pool.

(** What a worker computes for a job, the capacity of the channels, and
    the number of results that the main goroutine collects. *)
Variable process : Z -> Z.
Variable capacity : nat.
Variable numJobs : nat.

(** The main goroutine: it sends the jobs, closes [jobs], and receives
    [numJobs] results. [None] when it waits or has finished. *)
Definition main_step (s : state) : option state :=
  match unsent s with
  | j :: unsent' =>
      if (length (jobs s) <? capacity)%nat then
        Some (State unsent' (jobs s ++ [j]) (jobs_closed s) (workers s)
                    (results s) (collected s))
      else None
  | [] =>
      if negb (jobs_closed s) then
        Some (State [] (jobs s) true (workers s) (results s) (collected s))
      else if (length (collected s) <? numJobs)%nat then
        match results s with
        | result :: results' =>
            Some (State [] (jobs s) true (workers s) results'
                        (collected s ++ [result]))
        | [] => None
        end
      else None
  end.

(** A worker: [for job := range jobs], then [results <- result]. *)
Definition worker_step (w : nat) (s : state) : option state :=
  match workers s !! w with
  | Some Idle =>
      match jobs s with
      | job :: jobs' =>
          Some (State (unsent s) jobs' (jobs_closed s)
                      (<[w := Busy job]> (workers s)) (results s) (collected s))
      | [] =>
          if jobs_closed s then
            Some (State (unsent s) [] true (<[w := Exited]> (workers s))
                        (results s) (collected s))
          else None
      end
  | Some (Busy job) =>
      if (length (results s) <? capacity)%nat then
        Some (State (unsent s) (jobs s) (jobs_closed s)
                    (<[w := Idle]> (workers s))
                    (results s ++ [process job]) (collected s))
      else None
  | Some Exited => None
  | None => None
  end.

Definition step (a : actor) (s : state) : option state :=
  match a with
  | Main => main_step s
  | Worker w => worker_step w s
  end.

(** A run under a schedule; a schedule that picks a goroutine that
    cannot move is not a run. *)
Fixpoint run (schedule : list actor) (s : state) : option state :=
  match schedule with
  | [] => Some s
  | a :: schedule' => s' ← step a s; run schedule' s'
  end.

End Pool.

(** The workers are started before the first job is sent. *)
Definition init (numWorkers : nat) (all_jobs : list Z) : state :=
  State all_jobs [] false (replicate numWorkers Idle) [] [].

(** The jobs that the workers have in hand. *)
Definition in_hand (ws : list worker_state) : list Z :=
  ws ≫= (fun w => match w with Busy job => [job] | _ => [] end).

(** All the jobs are somewhere: sent back as a result, in a channel, in
    the hand of a worker, or not sent yet. *)
Definition accounted (process : Z -> Z) (all_jobs : list Z) (s : state)
  : Prop :=
  collected s ++ results s ++ map process (in_hand (workers s))
  ++ map process (jobs s) ++ map process (unsent s)
  ≡ₚ map process all_jobs.

(** [WorkerPoolPattern]: 3 workers, the jobs 1 to 8, [fibonacci]. *)
Definition WorkerPoolPattern (schedule : list actor) : option state :=
  run WorkerPool.fibonacci 8 8 schedule (init 3 (seqZ 1 8)).

(** The pool of [ChannelExamples]: 3 workers, the jobs 1 to 5, and
    [job * 2]. *)
Definition ChannelExamples (schedule : list actor) : option state :=
  run (fun job => int_mul job 2) 5 5 schedule (init 3 (seqZ 1 5)).

End Pool.

(** ** validateMenuChoice of main.go *)

Module MenuChoice.
Import Go.

Section Validate.

(** [strconv.Atoi]. *)
Variable Atoi : string -> Z * error.

Definition validateMenuChoice (input : string) : Z * error :=
  let '(choice, err) := Atoi input in
  match err with
  | Some _ => (-1, errors_New "invalid input: please enter a number")
  | None =>
      if (choice <? 0) || (7 <? choice) then
        (-1, errors_New "choice out of range: please select 0-7")
      else (choice, nil)
  end.

End Validate.

End MenuChoice.

(** ** strings.TrimSpace *)

Module Trim.

Definition byte (n : nat) : ascii := ascii_of_nat n.

(** The white space of [unicode.IsSpace], as the bytes of its UTF-8
    encodings: tab, line feed, vertical tab, form feed, carriage return
    and space; then U+0085 and U+00A0; then U+1680, U+2000 to U+200A,
    U+2028, U+2029, U+202F, U+205F and U+3000. A byte sequence that is
    no valid encoding decodes to no white space. *)
Definition white_space : list (list ascii) :=
  map (fun n => [byte n]) [9; 10; 11; 12; 13; 32]%nat
  ++ [[byte 194; byte 133]; [byte 194; byte 160]; [byte 225; byte 154; byte 128]]
  ++ map (fun n => [byte 226; byte 128; byte n]) (seq 128 11)
  ++ [[byte 226; byte 128; byte 168]; [byte 226; byte 128; byte 169];
      [byte 226; byte 128; byte 175]; [byte 226; byte 129; byte 159];
      [byte 227; byte 128; byte 128]].

Fixpoint starts_with (w l : list ascii) : bool :=
  match w, l with
  | [], _ => true
  | _ :: _, [] => false
  | c :: w', d :: l' => if Ascii.eqb c d then starts_with w' l' else false
  end.

(** The bytes after the first of the sequences [ws] that [l] starts
    with, if there is one. *)
Fixpoint strip (ws : list (list ascii)) (l : list ascii)
  : option (list ascii) :=
  match ws with
  | [] => None
  | w :: ws' =>
      if starts_with w l then Some (drop (length w) l) else strip ws' l
  end.

(** Stripping at the front as long as one of [ws] is there; every turn
    takes a byte at least, so the length of the input is turns enough. *)
Fixpoint strip_all (ws : list (list ascii)) (turns : nat) (l : list ascii)
  : list ascii :=
  match turns with
  | O => l
  | S turns' =>
      match strip ws l with
      | Some l' => strip_all ws turns' l'
      | None => l
      end
  end.

Definition trim_left (l : list ascii) : list ascii :=
  strip_all white_space (length l) l.

Definition trim_right (l : list ascii) : list ascii :=
  rev (strip_all (map (@rev ascii) white_space) (length l) (rev l)).

(** [strings.TrimSpace]: the string without its leading and trailing
    white space. *)
Definition TrimSpace (s : string) : string :=
  string_of_list_ascii (trim_right (trim_left (list_ascii_of_string s))).

End Trim.

(** * Properties *)

(** ** Integers *)

Section IntFacts.
Import Go.

Lemma int_range : min_int = -9223372036854775808 /\ max_int = 9223372036854775807.
Proof. split; reflexivity. Qed.

Lemma wrap_int (x : Z) : is_int x -> wrap x = x.
Proof.
  destruct int_range as [Hmin Hmax].
  unfold is_int, wrap. rewrite Hmin, Hmax. intros Hx.
  change (2 ^ (int_bits - 1)) with 9223372036854775808.
  change (2 ^ int_bits) with 18446744073709551616.
  rewrite Z.mod_small; lia.
Qed.

Lemma wrap_is_int (x : Z) : is_int (wrap x).
Proof.
  destruct int_range as [Hmin Hmax].
  unfold is_int, wrap. rewrite Hmin, Hmax.
  change (2 ^ (int_bits - 1)) with 9223372036854775808.
  change (2 ^ int_bits) with 18446744073709551616.
  pose proof (Z.mod_pos_bound (x + 9223372036854775808) 18446744073709551616).
  lia.
Qed.

(** The truncated quotient is no larger in magnitude than the dividend. *)
Lemma quot_abs_le (a b : Z) : b <> 0 -> Z.abs (Z.quot a b) <= Z.abs a.
Proof.
  intros Hb. rewrite <- Z.quot_abs by exact Hb.
  apply Z.quot_le_upper_bound; [lia | nia].
Qed.

Lemma quot_is_int (a b : Z) :
  is_int a -> is_int b -> b <> 0 -> (a <> min_int \/ b <> -1) ->
  is_int (Z.quot a b).
Proof.
  destruct int_range as [Hmin Hmax].
  unfold is_int. rewrite Hmin, Hmax. intros Ha Hb Hb0 Hex.
  pose proof (quot_abs_le a b Hb0) as Hq.
  destruct (Z.eq_dec a (-9223372036854775808)) as [-> | Hne]; [| lia].
  destruct Hex as [Hex | Hex]; [lia |].
  destruct (Z.eq_dec b 1) as [-> | Hb1].
  - rewrite Z.quot_1_r. lia.
  - pose proof (Z.quot_rem' (-9223372036854775808) b) as Heq.
    pose proof (Z.rem_bound_abs (-9223372036854775808) b Hb0) as Hr.
    nia.
Qed.

Lemma rem_is_int (a b : Z) : is_int b -> b <> 0 -> is_int (Z.rem a b).
Proof.
  destruct int_range as [Hmin Hmax].
  unfold is_int. rewrite Hmin, Hmax. intros Hb Hb0.
  pose proof (Z.rem_bound_abs a b Hb0). lia.
Qed.

End IntFacts.

(** ** divide *)

Section DivideFacts.
Import Go Functions.

Lemma divide_nonzero (a b : Z) :
  b <> 0 -> divide a b = Returns (wrap (Z.quot a b), wrap (Z.rem a b)).
Proof.
  intros Hb. unfold divide, int_div, int_rem.
  destruct (Z.eqb_spec b 0) as [? | _]; [contradiction | reflexivity].
Qed.

Lemma divide_zero (a : Z) :
  divide a 0 = Panics "runtime error: integer divide by zero".
Proof. reflexivity. Qed.

End DivideFacts.

(** C1: [divide], applied to the dividend 17 and the divisor 5, returns
    the pair (3, 2): the quotient 3 and the remainder 2. *)
Theorem divide_17_5 : Functions.divide 17 5 = Go.Returns (3, 2).
Proof. reflexivity. Qed.

(** C8, as stated, fails at the most negative dividend and the divisor -1:
    the call returns the quotient [min_int] and the remainder 0, and
    [min_int * -1 + 0] is not the dividend. *)
Lemma divide_min_int_minus_one :
  Go.is_int Go.min_int /\ Go.is_int (-1) /\ -1 <> 0 /\
  Functions.divide Go.min_int (-1) = Go.Returns (Go.min_int, 0) /\
  Go.min_int <> Go.min_int * (-1) + 0.
Proof.
  repeat split; try (vm_compute; congruence); try reflexivity.
Qed.

(** C8, amended: [divide] guards nothing. For every dividend [a] and every
    divisor [b <> 0] it returns a pair [(q, r)] with [|r| < |b|] and
    [a = q*b + r] in the arithmetic of [int]; the equation holds over the
    integers unless [a] is the most negative [int] and [b] is -1, where the
    quotient wraps. For [b = 0] the call panics with a division by zero. *)
Theorem divide_contract (a b : Z) :
  Go.is_int a -> Go.is_int b ->
  (b = 0 -> Functions.divide a b
            = Go.Panics "runtime error: integer divide by zero") /\
  (b <> 0 ->
   exists q r, Functions.divide a b = Go.Returns (q, r) /\
     Go.is_int q /\ Go.is_int r /\
     Z.abs r < Z.abs b /\
     Go.wrap (q * b + r) = a /\
     (a <> Go.min_int \/ b <> -1 -> a = q * b + r)).
Proof.
  intros Ha Hb. split.
  - intros ->. apply divide_zero.
  - intros Hb0. exists (Go.wrap (Z.quot a b)), (Go.wrap (Z.rem a b)).
    pose proof (rem_is_int a b Hb Hb0) as Hr.
    pose proof (Z.quot_rem' a b) as Heq.
    split; [apply divide_nonzero; exact Hb0 |].
    rewrite (wrap_int (Z.rem a b)) by exact Hr.
    split; [apply wrap_is_int |].
    split; [exact Hr |].
    split; [apply Z.rem_bound_abs; exact Hb0 |].
    split.
    + destruct (Z.eq_dec a Go.min_int) as [-> | Hne];
        [destruct (Z.eq_dec b (-1)) as [-> | Hne] |].
      * reflexivity.
      * rewrite (wrap_int (Z.quot _ b)) by (apply quot_is_int; auto).
        replace (Z.quot Go.min_int b * b + Z.rem Go.min_int b)
          with Go.min_int by lia.
        apply wrap_int, Ha.
      * rewrite (wrap_int (Z.quot a b)) by (apply quot_is_int; auto).
        replace (Z.quot a b * b + Z.rem a b) with a by lia.
        apply wrap_int, Ha.
    + intros Hex. rewrite (wrap_int (Z.quot a b)) by (apply quot_is_int; auto).
      lia.
Qed.

Lemma divide_contract_witness :
  Go.is_int (-17) /\ Go.is_int 5 /\
  exists q r, Functions.divide (-17) 5 = Go.Returns (q, r) /\
    Go.is_int q /\ Go.is_int r /\ Z.abs r < Z.abs 5 /\
    Go.wrap (q * 5 + r) = -17 /\
    (-17 <> Go.min_int \/ 5 <> -1 -> -17 = q * 5 + r).
Proof.
  assert (Ha : Go.is_int (-17)) by (vm_compute; split; discriminate).
  assert (Hb : Go.is_int 5) by (vm_compute; split; discriminate).
  split; [exact Ha |]. split; [exact Hb |].
  apply (proj2 (divide_contract (-17) 5 Ha Hb)). lia.
Defined.

(** ** safeDivide *)

Section FloatFacts.
Import Go.

(** [b == 0] holds for the two zeros and for nothing else. *)
Lemma float_eq_zero (b : float64) :
  float_eq b float_zero = true <-> exists s, b = S754_zero s.
Proof.
  unfold float_eq, float_zero, SFeqb. split.
  - destruct b as [s | s | | s m e]; simpl.
    + intros _. exists s. reflexivity.
    + destruct s; discriminate.
    + discriminate.
    + destruct s; discriminate.
  - intros [s ->]. reflexivity.
Qed.

End FloatFacts.

(** C6: [safeDivide a b] returns a non-nil error if and only if [b]
    equals zero, and the value it returns with the error is 0; for every
    [b] that is not zero the error is nil. *)
Theorem safeDivide_contract (a b : Go.float64) :
  (snd (Functions.safeDivide a b) <> Go.nil
   <-> Go.float_eq b Go.float_zero = true) /\
  (Go.float_eq b Go.float_zero = true <-> exists s, b = S754_zero s) /\
  (if Go.float_eq b Go.float_zero
   then fst (Functions.safeDivide a b) = Go.float_zero
   else Functions.safeDivide a b = (Go.float_div a b, Go.nil)).
Proof.
  split; [| split].
  - unfold Functions.safeDivide.
    destruct (Go.float_eq b Go.float_zero); simpl; split.
    + reflexivity.
    + discriminate.
    + intros H. exfalso. apply H. reflexivity.
    + discriminate.
  - apply float_eq_zero.
  - unfold Functions.safeDivide.
    destruct (Go.float_eq b Go.float_zero); reflexivity.
Qed.

(** ** validateEmail *)

Section ContainsFacts.
Import Strings.

Lemma HasPrefix_byte (c : ascii) (s : string) :
  HasPrefix s (String c EmptyString)
  = match s with
    | EmptyString => false
    | String d _ => Ascii.eqb c d
    end.
Proof.
  destruct s as [| d s']; simpl; [reflexivity |].
  destruct (Ascii.eqb c d); [destruct s' |]; reflexivity.
Qed.

(** The search answers -1 or an index from [i] on. *)
Lemma index_from_range (substr s : string) (i : Z) :
  index_from i s substr = -1 \/ i <= index_from i s substr.
Proof.
  revert i. induction s as [| d s' IH]; intros i; cbn [index_from].
  - destruct (HasPrefix EmptyString substr); lia.
  - destruct (HasPrefix (String d s') substr); [lia |].
    destruct (IH (i + 1)); lia.
Qed.

Lemma index_from_byte (c : ascii) (s : string) (i : Z) :
  0 <= i ->
  (0 <=? index_from i s (String c EmptyString)) = true
  <-> In c (list_ascii_of_string s).
Proof.
  revert i. induction s as [| d s' IH]; intros i Hi.
  - simpl. split; [intros H; apply Z.leb_le in H; lia | intros []].
  - cbn [index_from list_ascii_of_string In]. rewrite HasPrefix_byte.
    destruct (Ascii.eqb_spec c d) as [-> | Hne].
    + split; [intros _; left; reflexivity | intros _; apply Z.leb_le; lia].
    + rewrite IH by lia. split; [intros H; right; exact H |].
      intros [Heq | H]; [congruence | exact H].
Qed.

(** [Contains] with a one-byte pattern is membership of the byte. *)
Lemma Contains_byte (c : ascii) (s : string) :
  Contains s (String c EmptyString) = true <-> In c (list_ascii_of_string s).
Proof. unfold Contains, Index. apply index_from_byte. lia. Qed.

End ContainsFacts.

(** C2: [validateEmail] returns a non-nil error for "invalid-email" and
    nil for "user@example.com". *)
Theorem validateEmail_examples :
  Validation.validateEmail "invalid-email" <> Go.nil /\
  Validation.validateEmail "user@example.com" = Go.nil.
Proof. split; [discriminate | reflexivity]. Qed.

(** C9: for every string [e], [validateEmail e] is nil if and only if [e]
    contains the character '@' and the character '.'; nothing else is
    checked, so the malformed address "@." is accepted. *)
Theorem validateEmail_iff (e : string) :
  (Validation.validateEmail e = Go.nil
   <-> In "@"%char (list_ascii_of_string e)
       /\ In "."%char (list_ascii_of_string e)) /\
  Validation.validateEmail "@." = Go.nil.
Proof.
  split; [| reflexivity].
  rewrite <- !Contains_byte. unfold Validation.validateEmail.
  destruct (Strings.Contains e "@"); destruct (Strings.Contains e ".");
    simpl; unfold Go.nil, Go.errors_New; split;
    try discriminate; try tauto; intros [? ?]; discriminate.
Qed.

(** ** fibonacci and the pool worker *)

Section FibonacciFacts.
Import Go WorkerPool.

(** Once the depth covers [n - 1] nested calls, more depth changes
    nothing. *)
Lemma fibonacci_rec_depth (d1 d2 : nat) (n : Z) :
  is_int n -> n - 1 <= Z.of_nat d1 -> n - 1 <= Z.of_nat d2 ->
  fibonacci_rec d1 n = fibonacci_rec d2 n.
Proof.
  revert d2 n. induction d1 as [| d1 IH]; intros d2 n Hn H1 H2.
  - destruct d2; simpl; destruct (Z.leb_spec n 1); try reflexivity; lia.
  - destruct d2 as [| d2]; simpl; destruct (Z.leb_spec n 1);
      try reflexivity; try lia.
    assert (Hint : is_int (n - 1) /\ is_int (n - 2)).
    { destruct int_range as [Hmin Hmax]. unfold is_int in *.
      rewrite Hmin, Hmax in *. lia. }
    destruct Hint as [Hi1 Hi2]. unfold int_sub.
    rewrite !wrap_int by assumption.
    rewrite (IH d2 (n - 1)) by (auto; lia).
    rewrite (IH d2 (n - 2)) by (auto; lia).
    reflexivity.
Qed.

(** [fibonacci] satisfies the equation of its source text, so the bound on
    the depth is never met. *)
Lemma fibonacci_equation (n : Z) :
  is_int n ->
  fibonacci n
  = if n <=? 1 then n
    else int_add (fibonacci (int_sub n 1)) (fibonacci (int_sub n 2)).
Proof.
  intros Hn. unfold fibonacci.
  destruct (Z.leb_spec n 1) as [Hle | Hgt].
  - destruct (Z.to_nat n); simpl; destruct (Z.leb_spec n 1); try reflexivity; lia.
  - assert (Hint : is_int (n - 1) /\ is_int (n - 2)).
    { destruct int_range as [Hmin Hmax]. unfold is_int in *.
      rewrite Hmin, Hmax in *. lia. }
    destruct Hint as [Hi1 Hi2]. unfold int_sub.
    rewrite !wrap_int by assumption.
    destruct (Z.to_nat n) as [| d] eqn:Hd; [lia |].
    simpl. destruct (Z.leb_spec n 1); [lia |].
    unfold int_sub. rewrite !wrap_int by assumption.
    rewrite (fibonacci_rec_depth d (Z.to_nat (n - 1)) (n - 1)) by (auto; lia).
    rewrite (fibonacci_rec_depth d (Z.to_nat (n - 2)) (n - 2)) by (auto; lia).
    reflexivity.
Qed.

End FibonacciFacts.

(** C3: [fibonacci 6] is 8, so a worker that is given the job 6 sends the
    result 8 on the results channel (after its first message and its
    pause, and before its second message). *)
Theorem fibonacci_6_sent (id : Z) (rnd : nat -> Z) (k : nat) :
  WorkerPool.fibonacci 6 = 8 /\
  WorkerPool.sent (WorkerPool.poolWorker id rnd k [6]) = [8] /\
  exists format1 pause format2,
    WorkerPool.poolWorker id rnd k [6]
    = [WorkerPool.Printf format1 [id; 6]; WorkerPool.Sleep pause;
       WorkerPool.Send 8; WorkerPool.Printf format2 [id; 6; 8]].
Proof.
  split; [reflexivity |]. split; [reflexivity |].
  eexists _, _, _. reflexivity.
Qed.

(** ** The routes of the mux *)

(** C7, as stated, fails: "/api/users/" is registered too, and it is none
    of the three patterns of the claim. *)
Lemma routes_fourth_pattern :
  (("/api/users/" : string) ∈ Backend.routes Backend.HTTPServerExamples_mux) /\
  (("/api/users/" : string) ∉
    ({[ "/"; "/api/health"; "/api/users" ]} : gset string)%string) /\
  size (Backend.routes Backend.HTTPServerExamples_mux) = 4%nat.
Proof.
  split; [| split].
  - vm_compute. reflexivity.
  - rewrite !elem_of_union, !elem_of_singleton.
    intros [[H | H] | H]; discriminate H.
  - vm_compute. reflexivity.
Qed.

(** C7, amended: the server definition registers exactly four patterns on
    its mux: "/", "/api/health", "/api/users" and, for the requests with a
    user id, "/api/users/"; each with its own handler, and no others. *)
Theorem routes_exactly_four :
  Backend.routes Backend.HTTPServerExamples_mux
  = ({[ "/"; "/api/health"; "/api/users"; "/api/users/" ]} : gset string)%string /\
  exists mux, Backend.HTTPServerExamples_mux = Go.Returns mux /\
    mux !! ("/" : string) = Some Backend.homeHandler /\
    mux !! ("/api/health" : string) = Some Backend.healthHandler /\
    mux !! ("/api/users" : string) = Some Backend.usersHandler /\
    mux !! ("/api/users/" : string) = Some Backend.userByIDHandler /\
    size mux = 4%nat.
Proof.
  split.
  - vm_compute. reflexivity.
  - eexists. split; [vm_compute; reflexivity |].
    repeat split; vm_compute; reflexivity.
Qed.

(** ** The rate limiter *)

Section RateLimitFacts.
Import Go Backend.

(** Saturation does not change the comparison with a minute. *)
Lemma Sub_le_Minute (now t : Z) : Sub now t <= Minute <-> now - t <= Minute.
Proof.
  destruct int_range as [Hmin Hmax].
  unfold Sub, Minute, Second. rewrite Hmin, Hmax.
  destruct (Z.ltb_spec (now - t) (-9223372036854775808));
    [lia | destruct (Z.ltb_spec 9223372036854775807 (now - t)); lia].
Qed.

(** The cleaning loop is a filter. *)
Lemma clean_filter (now : Z) (reqTimes validRequests : list Z) :
  clean now reqTimes validRequests
  = validRequests ++ filter (fun t => now - t <= Minute) reqTimes.
Proof.
  revert validRequests.
  induction reqTimes as [| t l IH]; intros acc; simpl.
  - rewrite app_nil_r. reflexivity.
  - rewrite IH, filter_cons.
    destruct (Z.leb_spec (Sub now t) Minute) as [H | H];
      destruct (decide (now - t <= Minute)) as [D | D].
    + rewrite <- app_assoc. reflexivity.
    + apply Sub_le_Minute in H. contradiction.
    + apply Sub_le_Minute in D. lia.
    + reflexivity.
Qed.

(** The list of the requesting client after the pruning step. *)
Lemma cleaned_recorded (requests : gmap string (list Z)) (ip : string) (now : Z) :
  recorded
    match requests !! ip with
    | Some reqTimes => <[ip := clean now reqTimes []]> requests
    | None => requests
    end ip
  = filter (fun t => now - t <= Minute) (recorded requests ip).
Proof.
  unfold recorded. destruct (requests !! ip) as [l |] eqn:Hl.
  - rewrite lookup_insert_eq. simpl. apply clean_filter.
  - rewrite Hl. reflexivity.
Qed.

(** What [rateLimit] leaves for the requesting client, and its answer. *)
Lemma rateLimit_client (requests : gmap string (list Z)) (ip : string) (now : Z) :
  let kept := filter (fun t => now - t <= Minute) (recorded requests ip) in
  rateLimit requests ip now
  = if 10 <=? Z.of_nat (length kept)
    then (match requests !! ip with
          | Some reqTimes => <[ip := clean now reqTimes []]> requests
          | None => requests
          end, Error "Rate limit exceeded" StatusTooManyRequests)
    else (<[ip := kept ++ [now]]>
            match requests !! ip with
            | Some reqTimes => <[ip := clean now reqTimes []]> requests
            | None => requests
            end, ServeNext).
Proof.
  intros kept. unfold rateLimit.
  pose proof (cleaned_recorded requests ip now) as Hc. unfold recorded in Hc.
  rewrite Hc. reflexivity.
Qed.

Lemma rateLimit_recorded (requests : gmap string (list Z)) (ip : string) (now : Z) :
  let kept := filter (fun t => now - t <= Minute) (recorded requests ip) in
  recorded (fst (rateLimit requests ip now)) ip
  = if 10 <=? Z.of_nat (length kept) then kept else kept ++ [now].
Proof.
  intros kept. rewrite rateLimit_client. fold kept.
  destruct (10 <=? Z.of_nat (length kept)); simpl.
  - apply cleaned_recorded.
  - unfold recorded. rewrite lookup_insert_eq. reflexivity.
Qed.

(** The lists of the other clients are left as they are. *)
Lemma rateLimit_others (requests : gmap string (list Z)) (ip ip' : string) (now : Z) :
  ip' <> ip ->
  fst (rateLimit requests ip now) !! ip' = requests !! ip'.
Proof.
  intros Hne. rewrite rateLimit_client.
  destruct (10 <=? _); simpl; rewrite ?lookup_insert_ne by congruence;
    destruct (requests !! ip); rewrite ?lookup_insert_ne by congruence;
    reflexivity.
Qed.

Lemma rateLimit_bounded (requests : gmap string (list Z)) (ip : string) (now : Z) :
  bounded requests -> bounded (fst (rateLimit requests ip now)).
Proof.
  intros Hb ip'. destruct (decide (ip' = ip)) as [-> | Hne].
  - rewrite rateLimit_recorded.
    destruct (Z.leb_spec 10 (Z.of_nat (length
      (filter (fun t => now - t <= Minute) (recorded requests ip))))) as [H | H].
    + etransitivity; [apply length_filter | apply Hb].
    + rewrite length_app. simpl. lia.
  - unfold recorded. rewrite rateLimit_others by exact Hne. apply Hb.
Qed.

Lemma foldl_bounded (history : list (string * Z)) (requests : gmap string (list Z)) :
  bounded requests ->
  bounded (foldl (fun requests r => fst (rateLimit requests r.1 r.2))
                 requests history).
Proof.
  revert requests. induction history as [| r history IH]; intros m Hm; simpl.
  - exact Hm.
  - apply IH, rateLimit_bounded, Hm.
Qed.

Lemma serve_bounded (history : list (string * Z)) : bounded (serve history).
Proof.
  apply foldl_bounded. intros ip. unfold recorded.
  rewrite lookup_empty. simpl. lia.
Qed.

End RateLimitFacts.

(** C10, as stated, fails: only the list of the requesting client is
    pruned. After a request of client a at the instant 0 and a request of
    client b two minutes later, the list of a still holds the instant 0,
    which is more than one minute old. *)
Lemma rateLimit_other_client_not_pruned :
  Backend.recorded
    (fst (Backend.rateLimit (Backend.serve [("a"%string, 0)]) "b"
            (2 * Backend.Minute))) "a"
  = [0] /\
  ~ (Backend.Sub (2 * Backend.Minute) 0 <= Backend.Minute).
Proof.
  split; [vm_compute; reflexivity | vm_compute; intros H; apply H; reflexivity].
Qed.

(** C10, amended: after any request has been handled, every client's
    list has at most 10 entries, and the entries of the requesting client
    are at most one minute older than the request; the lists of the other
    clients are left as they are, unpruned. The request is answered with
    the status 429 if and only if the requesting client has 10 or more
    entries left after those older than one minute are pruned, and then
    no new entry is added for it; otherwise the instant of the request is
    appended and the request is passed on. *)
Theorem rateLimit_contract (history : list (string * Z)) (clientIP : string)
  (now : Z) :
  let requests := Backend.serve history in
  let kept :=
    filter (fun t => now - t <= Backend.Minute)
           (Backend.recorded requests clientIP) in
  let result := Backend.rateLimit requests clientIP now in
  (forall ip, (length (Backend.recorded (fst result) ip) <= 10)%nat) /\
  Forall (fun t => Backend.Sub now t <= Backend.Minute)
         (Backend.recorded (fst result) clientIP) /\
  (forall ip, ip <> clientIP ->
     Backend.recorded (fst result) ip = Backend.recorded requests ip) /\
  (snd result = Backend.Error "Rate limit exceeded" 429
   <-> (10 <= length kept)%nat) /\
  (if decide (10 <= length kept)%nat
   then Backend.recorded (fst result) clientIP = kept
   else Backend.recorded (fst result) clientIP = kept ++ [now]
        /\ snd result = Backend.ServeNext).
Proof.
  intros requests kept result. subst result.
  assert (Hrec := rateLimit_recorded requests clientIP now).
  assert (Hres := rateLimit_client requests clientIP now).
  cbv zeta in Hrec, Hres. fold kept in Hrec, Hres.
  assert (Hkept : Forall (fun t => Backend.Sub now t <= Backend.Minute) kept).
  { apply Forall_forall. intros t Ht. apply list_elem_of_filter in Ht.
    apply Sub_le_Minute, Ht. }
  split; [apply rateLimit_bounded, serve_bounded |].
  split.
  { rewrite Hrec. destruct (10 <=? _); [exact Hkept |].
    apply Forall_app. split; [exact Hkept |].
    apply Forall_singleton, Sub_le_Minute.
    unfold Backend.Minute, Backend.Second. lia. }
  split.
  { intros ip Hne. unfold Backend.recorded.
    rewrite rateLimit_others by exact Hne. reflexivity. }
  rewrite Hrec, Hres.
  destruct (Z.leb_spec 10 (Z.of_nat (length kept))) as [H | H];
    destruct (decide (10 <= length kept)%nat); try lia; simpl.
  - split; [| reflexivity]. split; [intros _; assumption | reflexivity].
  - split; [| split; reflexivity]. split; [discriminate | lia].
Qed.

(** ** The menu loop *)

Section MenuFacts.
Import Menu.

Variable TrimSpace : string -> string.
Variable module_output : module -> world -> list string.
Variable module_input : module -> world -> list string.

Local Abbreviation run := (Menu.run module_output module_input).
Local Abbreviation executeChoice := (Menu.executeChoice module_output module_input).
Local Abbreviation iteration := (Menu.iteration TrimSpace module_output module_input).
Local Abbreviation menu_loop := (Menu.menu_loop TrimSpace module_output module_input).

Lemma displayMenu_world (w : world) :
  displayMenu w = World (stdin w) (stdout w ++ menu_text).
Proof.
  unfold displayMenu, Println, Print. cbn [stdin stdout]. f_equal.
  rewrite <- !app_assoc. reflexivity.
Qed.

(** The world in which the choice has been read. *)
Lemma getUserInput_world (w : world) :
  getUserInput TrimSpace prompt (displayMenu w)
  = (next_choice TrimSpace w,
     World (tail (stdin w)) (stdout w ++ menu_text ++ [prompt])).
Proof.
  rewrite displayMenu_world.
  unfold getUserInput, next_choice, ReadLine, Print. cbn [stdin stdout].
  rewrite <- app_assoc. destruct w as [[| line rest] out]; reflexivity.
Qed.

Lemma iteration_unfold (w : world) :
  let w1 := World (tail (stdin w)) (stdout w ++ menu_text ++ [prompt]) in
  iteration w
  = if String.eqb (next_choice TrimSpace w) "0" then Break (Println goodbye w1)
    else Continue
           (snd (ReadLine
                   (Println press_enter
                      (executeChoice (next_choice TrimSpace w) w1)))).
Proof.
  intros w1. unfold Menu.iteration. fold prompt. rewrite getUserInput_world.
  fold w1. destruct (String.eqb _ "0"); [reflexivity |].
  fold press_enter.
  destruct (ReadLine (Println press_enter _)); reflexivity.
Qed.

(** A choice that is not offered falls to the default of the switch. *)
Lemma executeChoice_invalid (c : string) (w : world) :
  c ∉ offered ->
  executeChoice c w = Println invalid_choice (Println "" w).
Proof.
  unfold offered. rewrite !not_elem_of_cons.
  intros (_ & H1 & H2 & H3 & H4 & H5 & H6 & H7 & _).
  unfold Menu.executeChoice.
  apply String.eqb_neq in H1, H2, H3, H4, H5, H6, H7.
  rewrite H1, H2, H3, H4, H5, H6, H7. reflexivity.
Qed.

(** What is written is never taken back. *)
Lemma executeChoice_output (c : string) (w : world) :
  exists more, stdout (executeChoice c w) = stdout w ++ more.
Proof.
  unfold Menu.executeChoice, Menu.run, Println, Print.
  repeat (destruct (String.eqb c _); cbn [stdout];
          [rewrite <- app_assoc; eexists; reflexivity |]).
  rewrite <- app_assoc; eexists; reflexivity.
Qed.

(** Every turn of the loop begins by writing the menu. *)
Lemma iteration_output (w : world) :
  exists rest, stdout (world_of (iteration w)) = stdout w ++ menu_text ++ rest.
Proof.
  rewrite iteration_unfold. cbv zeta.
  destruct (String.eqb _ "0"); cbn [world_of].
  - unfold Println, Print. cbn [stdout]. rewrite <- !app_assoc.
    eexists. reflexivity.
  - set (w1 := World (tail (stdin w)) (stdout w ++ menu_text ++ [prompt])).
    destruct (executeChoice_output (next_choice TrimSpace w) w1) as [more Hm].
    set (w' := executeChoice (next_choice TrimSpace w) w1) in *.
    unfold ReadLine, Println, Print. cbn [stdin stdout].
    destruct (stdin w'); cbn [snd stdout]; rewrite Hm; cbn [stdout w1];
      rewrite <- !app_assoc; eexists; reflexivity.
Qed.

(** Whatever the trimming of the line does: "1" to "7" as the choice
    make [executeChoice] run exactly the learning module listed under
    that number, "0" ends the loop, and every other choice makes it write
    the invalid-choice message and run no module, after which the loop
    goes on and its next turn writes the menu again. *)
Lemma menu_contract (w : world) :
  let c := next_choice TrimSpace w in
  let w1 := World (tail (stdin w)) (stdout w ++ menu_text ++ [prompt]) in
  (forall m w', executeChoice (menu_key m) w' = run m (Println "" w')) /\
  (forall m, c = menu_key m ->
     iteration w
     = Continue (snd (ReadLine (Println press_enter (run m (Println "" w1)))))) /\
  (c = "0"%string ->
     iteration w = Break (Println goodbye w1) /\
     forall turns, menu_loop (S turns) w = Some (Println goodbye w1)) /\
  (c ∉ offered ->
     let w2 :=
       World (tail (tail (stdin w)))
             (stdout w1 ++ [newline; (invalid_choice ++ newline)%string;
                            (press_enter ++ newline)%string]) in
     executeChoice c w1 = Println invalid_choice (Println "" w1) /\
     iteration w = Continue w2 /\
     (forall turns, menu_loop (S turns) w = menu_loop turns w2) /\
     exists rest, stdout (world_of (iteration w2))
                  = stdout w2 ++ menu_text ++ rest).
Proof.
  intros c w1.
  assert (Hdispatch :
    forall m w', executeChoice (menu_key m) w' = run m (Println "" w')).
  { intros m w'. destruct m; reflexivity. }
  split; [exact Hdispatch |]. split; [| split].
  - intros m Hc. rewrite iteration_unfold. cbv zeta. fold c w1.
    rewrite Hc, Hdispatch. destruct m; reflexivity.
  - intros Hc.
    assert (Hit : iteration w = Break (Println goodbye w1)).
    { rewrite iteration_unfold. cbv zeta. fold c. rewrite Hc. reflexivity. }
    split; [exact Hit |]. intros turns. cbn [Menu.menu_loop].
    rewrite Hit. reflexivity.
  - intros Hc w2.
    assert (Hit : iteration w = Continue w2).
    { rewrite iteration_unfold. cbv zeta. fold c w1.
      assert (H0 : String.eqb c "0" = false).
      { apply String.eqb_neq. intros ->. apply Hc. unfold offered. left. }
      rewrite H0, (executeChoice_invalid c w1 Hc).
      unfold w2, w1, ReadLine, Println, Print. cbn [stdin stdout].
      destruct (tail (stdin w)); cbn [snd tail];
        rewrite <- !app_assoc; reflexivity. }
    split; [apply executeChoice_invalid, Hc |].
    split; [exact Hit |]. split.
    + intros turns. cbn [Menu.menu_loop]. rewrite Hit. reflexivity.
    + apply iteration_output.
Qed.

End MenuFacts.

Section TrimFacts.
Import Menu.

Lemma TrimSpace_typed :
  (forall m, Trim.TrimSpace (menu_key m ++ newline) = menu_key m) /\
  Trim.TrimSpace ("0" ++ newline) = "0"%string.
Proof. split; [intros m; destruct m; reflexivity | reflexivity]. Qed.

End TrimFacts.

(** C5, as stated, fails: the menu acts on the line with its white space
    trimmed, so a typed string that is none of "0" to "7" can still be
    a choice. The line " 1" runs module 1 and writes no invalid-choice
    message, and the line "0 " ends the loop. *)
Lemma menu_untrimmed_input :
  let module_output := fun (m : Menu.module) (_ : Menu.world) =>
    [("module " ++ Menu.menu_key m)%string] in
  let module_input := fun (_ : Menu.module) (w : Menu.world) => Menu.stdin w in
  let typed1 := (" 1" ++ Menu.newline)%string in
  let typed0 := ("0 " ++ Menu.newline)%string in
  (" 1"%string ∉ Menu.offered) /\ (typed1 ∉ Menu.offered) /\
  Menu.iteration Trim.TrimSpace module_output module_input
    (Menu.World [typed1; Menu.newline] [])
  = Menu.Continue
      (Menu.World []
         (Menu.menu_text
          ++ [Menu.prompt; Menu.newline; "module 1"%string;
              (Menu.press_enter ++ Menu.newline)%string])) /\
  ((Menu.invalid_choice ++ Menu.newline)%string
   ∉ Menu.menu_text
     ++ [Menu.prompt; Menu.newline; "module 1"%string;
         (Menu.press_enter ++ Menu.newline)%string]) /\
  ("0 "%string ∉ Menu.offered) /\ (typed0 ∉ Menu.offered) /\
  Menu.iteration Trim.TrimSpace module_output module_input
    (Menu.World [typed0] [])
  = Menu.Break
      (Menu.World []
         (Menu.menu_text
          ++ [Menu.prompt; (Menu.goodbye ++ Menu.newline)%string])).
Proof.
  cbv zeta.
  assert (Hno : forall s : string,
    s <> "0"%string -> s <> "1"%string -> s <> "2"%string ->
    s <> "3"%string -> s <> "4"%string -> s <> "5"%string ->
    s <> "6"%string -> s <> "7"%string -> s ∉ Menu.offered).
  { intros s H0 H1 H2 H3 H4 H5 H6 H7. unfold Menu.offered.
    rewrite !not_elem_of_cons. repeat split; try assumption.
    apply not_elem_of_nil. }
  split; [apply Hno; discriminate |].
  split; [apply Hno; discriminate |].
  split; [vm_compute; reflexivity |].
  split.
  { set (menu := Menu.menu_text). vm_compute in menu. subst menu.
    cbn [app]. rewrite !not_elem_of_cons.
    repeat split; try discriminate. apply not_elem_of_nil. }
  split; [apply Hno; discriminate |].
  split; [apply Hno; discriminate |].
  vm_compute. reflexivity.
Qed.

(** C5, amended: the menu acts on each line read from the user with
    its leading and trailing white space trimmed. When the trimmed line
    is one of "1" to "7", [executeChoice] runs exactly the learning
    module listed under that number; when it is "0", the menu loop ends;
    and for every other trimmed line the invalid-choice message is
    written, no module is run, and the loop goes on to write the menu
    again at its next turn. A digit typed alone on its line is a trimmed
    line of its own. *)
Theorem menu_contract_trimmed
  (module_output : Menu.module -> Menu.world -> list string)
  (module_input : Menu.module -> Menu.world -> list string)
  (w : Menu.world) :
  let run := Menu.run module_output module_input in
  let executeChoice := Menu.executeChoice module_output module_input in
  let iteration := Menu.iteration Trim.TrimSpace module_output module_input in
  let menu_loop := Menu.menu_loop Trim.TrimSpace module_output module_input in
  let typed := fst (Menu.ReadLine w) in
  let c := Trim.TrimSpace typed in
  let w1 := Menu.World (tail (Menu.stdin w))
              (Menu.stdout w ++ Menu.menu_text ++ [Menu.prompt]) in
  (forall m w',
     executeChoice (Menu.menu_key m) w' = run m (Menu.Println "" w')) /\
  (forall m, c = Menu.menu_key m ->
     iteration w
     = Menu.Continue
         (snd (Menu.ReadLine
                 (Menu.Println Menu.press_enter
                    (run m (Menu.Println "" w1)))))) /\
  (c = "0"%string ->
     iteration w = Menu.Break (Menu.Println Menu.goodbye w1) /\
     forall turns,
       menu_loop (S turns) w = Some (Menu.Println Menu.goodbye w1)) /\
  (c ∉ Menu.offered ->
     let w2 :=
       Menu.World (tail (tail (Menu.stdin w)))
         (Menu.stdout w1
          ++ [Menu.newline; (Menu.invalid_choice ++ Menu.newline)%string;
              (Menu.press_enter ++ Menu.newline)%string]) in
     executeChoice c w1
     = Menu.Println Menu.invalid_choice (Menu.Println "" w1) /\
     iteration w = Menu.Continue w2 /\
     (forall turns, menu_loop (S turns) w = menu_loop turns w2) /\
     exists rest, Menu.stdout (Menu.world_of (iteration w2))
                  = Menu.stdout w2 ++ Menu.menu_text ++ rest) /\
  (forall m,
     Trim.TrimSpace (Menu.menu_key m ++ Menu.newline) = Menu.menu_key m) /\
  Trim.TrimSpace ("0" ++ Menu.newline) = "0"%string.
Proof.
  cbv zeta.
  destruct (menu_contract Trim.TrimSpace module_output module_input w)
    as (H1 & H2 & H3 & H4).
  destruct TrimSpace_typed as [H5 H6].
  split; [exact H1 |]. split; [exact H2 |]. split; [exact H3 |].
  split; [exact H4 |]. split; [exact H5 | exact H6].
Qed.

Lemma menu_contract_trimmed_witness :
  let none := fun (_ : Menu.module) (_ : Menu.world) => ([] : list string) in
  let w := Menu.World [("9 " ++ Menu.newline)%string; Menu.newline;
                       (" 0" ++ Menu.newline)%string] [] in
  (Trim.TrimSpace (fst (Menu.ReadLine w)) ∉ Menu.offered) /\
  Menu.menu_loop Trim.TrimSpace none none 2 w
  = Menu.menu_loop Trim.TrimSpace none none 1
      (Menu.World [(" 0" ++ Menu.newline)%string]
         (Menu.menu_text ++ [Menu.prompt; Menu.newline;
            (Menu.invalid_choice ++ Menu.newline)%string;
            (Menu.press_enter ++ Menu.newline)%string])).
Proof.
  intros none w.
  assert (Hc : Trim.TrimSpace (fst (Menu.ReadLine w)) ∉ Menu.offered).
  { change (Trim.TrimSpace (fst (Menu.ReadLine w))) with "9"%string.
    unfold Menu.offered. rewrite !not_elem_of_cons.
    repeat split; try discriminate. apply not_elem_of_nil. }
  split; [exact Hc |].
  pose proof (menu_contract_trimmed none none w) as H. cbv zeta in H.
  destruct H as (_ & _ & _ & Hinv & _).
  destruct (Hinv Hc) as (_ & _ & Hloop & _).
  rewrite (Hloop 1%nat). cbn [Menu.stdin Menu.stdout tail].
  rewrite <- app_assoc. reflexivity.
Defined.

(** ** The mutex-protected counter *)

Section CounterFacts.
Import Go Counter.

Lemma sum_over_insert (f : goroutine -> Z) (gs : list goroutine) (t : nat)
  (g g' : goroutine) :
  gs !! t = Some g ->
  sum_over f (<[t := g']> gs) = sum_over f gs - f g + f g'.
Proof.
  revert t. induction gs as [| h gs IH]; intros [| t] Hg; simpl in *;
    try discriminate.
  - injection Hg as ->. lia.
  - rewrite (IH t Hg). lia.
Qed.

Lemma sum_over_bounds (f : goroutine -> Z) (lo hi : Z) (gs : list goroutine) :
  Forall (fun g => lo <= f g <= hi) gs ->
  lo * Z.of_nat (length gs) <= sum_over f gs <= hi * Z.of_nat (length gs).
Proof.
  induction 1 as [| g gs Hg _ IH]; simpl; [lia |].
  rewrite Nat2Z.inj_succ. lia.
Qed.

Lemma sum_over_lookup (f : goroutine -> Z) (gs : list goroutine) (t : nat)
  (g : goroutine) :
  (forall x, 0 <= f x) -> gs !! t = Some g -> f g <= sum_over f gs.
Proof.
  intros Hf. revert t.
  induction gs as [| x gs IH]; intros [| t] Hg; simpl in *; try discriminate.
  - injection Hg as ->.
    assert (0 <= sum_over f gs); [| lia].
    clear IH. induction gs as [| y gs IH]; simpl; [lia |].
    specialize (Hf y). lia.
  - specialize (IH t Hg). specialize (Hf x). lia.
Qed.

(** Two goroutines weigh no more than all of them. *)
Lemma sum_over_two (f : goroutine -> Z) (gs : list goroutine) (t j : nat)
  (g h : goroutine) :
  (forall x, 0 <= f x) -> t <> j ->
  gs !! t = Some g -> gs !! j = Some h ->
  f g + f h <= sum_over f gs.
Proof.
  intros Hf. revert t j.
  induction gs as [| x gs IH]; intros [| t] [| j] Hne Hg Hh; simpl in *;
    try discriminate; try congruence.
  - injection Hg as ->. pose proof (sum_over_lookup f gs j h Hf Hh). lia.
  - injection Hh as ->. pose proof (sum_over_lookup f gs t g Hf Hg). lia.
  - assert (Hne' : t <> j) by congruence.
    specialize (IH t j Hne' Hg Hh). specialize (Hf x). lia.
Qed.

Lemma holds_mutex_nonneg (g : goroutine) : 0 <= holds_mutex g.
Proof. unfold holds_mutex. destruct (at_point g); lia. Qed.

Lemma well_placed_increments (c : Z) (g : goroutine) :
  well_placed c g -> 0 <= increments_of g <= iterations.
Proof.
  unfold well_placed, increments_of. intros (Hi & Hlt & _ & _).
  destruct (at_point g); try lia;
    (assert (loop_i g < iterations) by (apply Hlt; discriminate); lia).
Qed.

(** Under the invariant the counter is far from the bounds of [int]. *)
Lemma invariant_counter_bounds (s : state) :
  invariant s -> 0 <= counter s <= 5000.
Proof.
  intros [Hlen Hcnt _ Heach]. rewrite Hcnt.
  pose proof (sum_over_bounds increments_of 0 iterations (goroutines s)) as Hb.
  rewrite Hlen in Hb. unfold iterations, num_goroutines in Hb.
  apply Hb. eapply Forall_impl; [exact Heach |].
  intros g Hg. apply (well_placed_increments _ _ Hg).
Qed.

Lemma int_add_small (x y : Z) :
  0 <= x <= 5000 -> 0 <= y <= 5000 -> int_add x y = x + y.
Proof.
  intros Hx Hy. unfold int_add. apply wrap_int.
  destruct int_range as [Hmin Hmax]. unfold is_int. rewrite Hmin, Hmax. lia.
Qed.

Lemma invariant_init : invariant init.
Proof.
  constructor; try reflexivity.
  unfold init. cbn [counter goroutines].
  apply Forall_replicate. unfold well_placed, iterations. simpl.
  repeat split; try lia; discriminate.
Qed.

(** Every step keeps the invariant. *)
Lemma step_invariant (t : nat) (s s' : state) :
  invariant s -> step t s = Some s' -> invariant s'.
Proof.
  intros Hinv Hstep.
  pose proof (invariant_counter_bounds s Hinv) as Hbound.
  destruct Hinv as [Hlen Hcnt Hmu Heach]. unfold step in Hstep.
  destruct (goroutines s !! t) as [g |] eqn:Hg; simpl in Hstep;
    [| discriminate].
  pose proof (Forall_lookup_1 _ _ _ _ Heach Hg) as Hwp.
  pose proof (sum_over_lookup holds_mutex _ _ _ holds_mutex_nonneg Hg) as Hheld.
  destruct g as [p i v]. unfold well_placed in Hwp. cbn in Hwp, Hstep, Hheld.
  destruct Hwp as (Hi & Hlt & Hdone & Hst).
  destruct p; cbn in Hstep; unfold holds_mutex at 1 in Hheld; cbn in Hheld.
  - (* the loop test *)
    injection Hstep as <-. constructor; cbn [counter mu_locked goroutines].
    + rewrite length_insert. exact Hlen.
    + rewrite (sum_over_insert _ _ _ _ _ Hg), Hcnt. unfold increments_of.
      cbn. destruct (i <? iterations); lia.
    + rewrite (sum_over_insert _ _ _ _ _ Hg), Hmu. unfold holds_mutex.
      cbn. destruct (i <? iterations); lia.
    + apply Forall_insert; [exact Heach |]. unfold well_placed. cbn.
      destruct (Z.ltb_spec i iterations); repeat split;
        try lia; try discriminate; intros; first [lia | congruence].
  - (* mu.Lock() *)
    destruct (mu_locked s) eqn:Hlocked; [discriminate |].
    injection Hstep as <-. constructor; cbn [counter mu_locked goroutines].
    + rewrite length_insert. exact Hlen.
    + rewrite (sum_over_insert _ _ _ _ _ Hg), Hcnt. unfold increments_of.
      cbn. lia.
    + rewrite (sum_over_insert _ _ _ _ _ Hg), Hmu. unfold holds_mutex.
      cbn. lia.
    + apply Forall_insert; [exact Heach |]. unfold well_placed. cbn.
      repeat split; try lia; try discriminate.
      intros _ _. apply Hlt; discriminate.
  - (* the read of counter++ *)
    injection Hstep as <-. constructor; cbn [counter mu_locked goroutines].
    + rewrite length_insert. exact Hlen.
    + rewrite (sum_over_insert _ _ _ _ _ Hg), Hcnt. unfold increments_of.
      cbn. lia.
    + rewrite (sum_over_insert _ _ _ _ _ Hg), Hmu. unfold holds_mutex.
      cbn. lia.
    + apply Forall_insert; [exact Heach |]. unfold well_placed. cbn.
      repeat split; try lia; try discriminate.
      intros _ _. apply Hlt; discriminate.
  - (* the write of counter++ *)
    injection Hstep as <-.
    assert (Hv : v = counter s) by (apply Hst; reflexivity). subst v.
    rewrite int_add_small by lia.
    constructor; cbn [counter mu_locked goroutines].
    + rewrite length_insert. exact Hlen.
    + rewrite (sum_over_insert _ _ _ _ _ Hg), Hcnt. unfold increments_of.
      cbn. lia.
    + rewrite (sum_over_insert _ _ _ _ _ Hg), Hmu. unfold holds_mutex.
      cbn. lia.
    + apply Forall_lookup_2. intros j x Hx.
      destruct (decide (t = j)) as [<- | Hne].
      * rewrite list_lookup_insert_eq in Hx by (eapply lookup_lt_Some; eauto).
        injection Hx as <-. unfold well_placed. cbn.
        repeat split; try lia; try discriminate.
        intros _ _. apply Hlt; discriminate.
      * rewrite list_lookup_insert_ne in Hx by exact Hne.
        pose proof (Forall_lookup_1 _ _ _ _ Heach Hx) as Hwx.
        pose proof (sum_over_two holds_mutex _ _ _ _ _
                      holds_mutex_nonneg Hne Hg Hx) as Htwo.
        rewrite Hmu in Htwo. unfold holds_mutex at 1 in Htwo. cbn in Htwo.
        assert (Hx0 : at_point x <> Store).
        { intros Hp. unfold holds_mutex in Htwo. rewrite Hp in Htwo.
          destruct (mu_locked s); lia. }
        destruct Hwx as (H1 & H2 & H3 & _).
        repeat split; try assumption; try lia. intros Hp. contradiction.
  - (* mu.Unlock() *)
    injection Hstep as <-.
    assert (Hlocked : mu_locked s = true).
    { rewrite Hmu in Hheld. destruct (mu_locked s); [reflexivity | lia]. }
    rewrite Hlocked in Hmu.
    constructor; cbn [counter mu_locked goroutines].
    + rewrite length_insert. exact Hlen.
    + rewrite (sum_over_insert _ _ _ _ _ Hg), Hcnt. unfold increments_of.
      cbn. lia.
    + rewrite (sum_over_insert _ _ _ _ _ Hg), Hmu. unfold holds_mutex.
      cbn. lia.
    + apply Forall_insert; [exact Heach |]. unfold well_placed. cbn.
      repeat split; try lia; try discriminate.
      intros _ _. apply Hlt; discriminate.
  - (* i++ *)
    injection Hstep as <-.
    assert (Hi' : i < iterations) by (apply Hlt; discriminate).
    unfold iterations in *.
    rewrite int_add_small by lia.
    constructor; cbn [counter mu_locked goroutines].
    + rewrite length_insert. exact Hlen.
    + rewrite (sum_over_insert _ _ _ _ _ Hg), Hcnt. unfold increments_of.
      cbn. lia.
    + rewrite (sum_over_insert _ _ _ _ _ Hg), Hmu. unfold holds_mutex.
      cbn. lia.
    + apply Forall_insert; [exact Heach |]. unfold well_placed, iterations.
      cbn. repeat split; try lia; try discriminate; intros; congruence.
  - discriminate.
Qed.

Lemma run_invariant (schedule : list nat) (s s' : state) :
  invariant s -> run schedule s = Some s' -> invariant s'.
Proof.
  revert s. induction schedule as [| t schedule IH]; intros s Hinv Hrun;
    simpl in Hrun.
  - injection Hrun as <-. exact Hinv.
  - destruct (step t s) as [s1 |] eqn:Hstep; simpl in Hrun; [| discriminate].
    apply (IH s1); [eapply step_invariant; eauto | exact Hrun].
Qed.

(** When all goroutines have returned, each has done all its turns. *)
Lemma all_done_sum (c : Z) (gs : list goroutine) :
  Forall (well_placed c) gs ->
  forallb (fun g => bool_decide (at_point g = Done)) gs = true ->
  sum_over increments_of gs = iterations * Z.of_nat (length gs).
Proof.
  induction 1 as [| g gs Hg _ IH]; intros Hall; simpl in *; [lia |].
  apply andb_true_iff in Hall as [Hd Hall].
  apply bool_decide_eq_true in Hd.
  destruct Hg as (_ & _ & Hdone & _).
  rewrite (IH Hall). unfold increments_of. rewrite Hd, (Hdone Hd). lia.
Qed.

End CounterFacts.

(** C4: in the counter example, with 5 goroutines that each increment the
    shared counter 1000 times under the mutex, every run in which all the
    goroutines have finished before the counter is read gives exactly
    5000, whatever the interleaving of their steps. *)
Theorem mutex_counter_5000 (schedule : list nat) (s : Counter.state) :
  Counter.run schedule Counter.init = Some s ->
  Counter.all_done s = true ->
  Counter.counter s = 5000.
Proof.
  intros Hrun Hdone.
  pose proof (run_invariant schedule _ _ invariant_init Hrun)
    as [Hlen Hcnt _ Heach].
  rewrite Hcnt, (all_done_sum _ _ Heach Hdone), Hlen. reflexivity.
Qed.

Lemma mutex_counter_5000_witness :
  exists s, Counter.run Counter.sequential_schedule Counter.init = Some s /\
            Counter.all_done s = true /\ Counter.counter s = 5000.
Proof.
  assert (H : exists s,
    Counter.run Counter.sequential_schedule Counter.init = Some s /\
    Counter.all_done s = true).
  { vm_compute. eexists. split; reflexivity. }
  destruct H as (s & Hrun & Hdone). exists s.
  split; [exact Hrun |]. split; [exact Hdone |].
  exact (mutex_counter_5000 Counter.sequential_schedule s Hrun Hdone).
Defined.

(** * Further properties of the code *)

(** ** sum and applyOperation *)

Section CollectionsFacts.
Import Go Collections.

Lemma wrap_add_l (a b : Z) : wrap (wrap a + b) = wrap (a + b).
Proof.
  unfold wrap.
  change (2 ^ (int_bits - 1)) with 9223372036854775808.
  change (2 ^ int_bits) with 18446744073709551616.
  f_equal.
  replace ((a + 9223372036854775808) mod 18446744073709551616
           - 9223372036854775808 + b + 9223372036854775808)
    with ((a + 9223372036854775808) mod 18446744073709551616 + b) by lia.
  rewrite Zplus_mod_idemp_l. f_equal. lia.
Qed.

Lemma sum_loop_wrap (numbers : list Z) (total : Z) :
  sum_loop (wrap total) numbers = wrap (total + foldr Z.add 0 numbers).
Proof.
  revert total. induction numbers as [| num numbers IH]; intros total; simpl.
  - rewrite Z.add_0_r. reflexivity.
  - unfold int_add. rewrite wrap_add_l, IH. f_equal. lia.
Qed.

Lemma foldr_add_perm (xs ys : list Z) :
  xs ≡ₚ ys -> foldr Z.add 0 xs = foldr Z.add 0 ys.
Proof. induction 1; simpl; lia. Qed.

Lemma applyOperation_loop_map (operation : Z -> Z) (numbers : list Z) :
  forall (i : nat) (result : list Z),
    length result = (i + length numbers)%nat ->
    applyOperation_loop operation i numbers result
    = take i result ++ map operation numbers.
Proof.
  induction numbers as [| num numbers IH]; intros i result Hlen; simpl in *.
  - rewrite app_nil_r, firstn_all2 by lia. reflexivity.
  - rewrite IH by (rewrite length_insert; lia).
    rewrite (take_S_r _ _ (operation num))
      by (apply list_lookup_insert_eq; lia).
    rewrite take_insert_ge by lia. rewrite <- app_assoc. reflexivity.
Qed.

End CollectionsFacts.

(** X1: [sum] returns the exact total of its arguments reduced into the
    range of [int]: an overflow on the way does not change the result, a
    total that fits is returned as it is, and the order of the arguments
    does not matter. *)
Theorem sum_modular (numbers : list Z) :
  Collections.sum numbers = Go.wrap (foldr Z.add 0 numbers) /\
  (Go.is_int (foldr Z.add 0 numbers) ->
   Collections.sum numbers = foldr Z.add 0 numbers) /\
  (forall numbers', numbers ≡ₚ numbers' ->
     Collections.sum numbers' = Collections.sum numbers).
Proof.
  assert (H : forall l, Collections.sum l = Go.wrap (foldr Z.add 0 l)).
  { intros l. unfold Collections.sum.
    change 0 with (Go.wrap 0) at 1. rewrite sum_loop_wrap. reflexivity. }
  split; [apply H |]. split.
  - intros Hint. rewrite H. apply wrap_int, Hint.
  - intros numbers' Hp. rewrite !H, (foldr_add_perm _ _ Hp). reflexivity.
Qed.

(** X2: [applyOperation] returns the list of the results of the operation
    on each number, in the order of the numbers: it has the length of the
    input, and applying two operations in turn is applying their
    composition. *)
Theorem applyOperation_map (numbers : list Z) (operation : Z -> Z) :
  Collections.applyOperation numbers operation = map operation numbers /\
  length (Collections.applyOperation numbers operation) = length numbers /\
  (forall operation',
     Collections.applyOperation
       (Collections.applyOperation numbers operation) operation'
     = Collections.applyOperation numbers (fun x => operation' (operation x))).
Proof.
  assert (H : forall l f, Collections.applyOperation l f = map f l).
  { intros l f. unfold Collections.applyOperation.
    rewrite applyOperation_loop_map by (rewrite length_replicate; lia).
    reflexivity. }
  split; [apply H |]. split.
  - rewrite H. apply length_map.
  - intros operation'. rewrite !H, map_map. reflexivity.
Qed.

Lemma sum_modular_witness :
  Go.is_int (foldr Z.add 0 [Go.max_int; 1; -1]) /\
  Collections.sum [Go.max_int; 1; -1] = Go.max_int.
Proof.
  assert (H : Go.is_int (foldr Z.add 0 [Go.max_int; 1; -1]))
    by (vm_compute; split; discriminate).
  split; [exact H |].
  exact (proj1 (proj2 (sum_modular [Go.max_int; 1; -1])) H).
Defined.

(** ** createUser and processUserData *)

Section UsersFacts.
Import Go Users.

Lemma validateEmail_nil (e : string) :
  Validation.validateEmail e = nil
  <-> In "@"%char (list_ascii_of_string e)
      /\ In "."%char (list_ascii_of_string e).
Proof.
  rewrite <- !Contains_byte. unfold Validation.validateEmail.
  destruct (Strings.Contains e "@"); destruct (Strings.Contains e ".");
    simpl; unfold nil, errors_New; split;
    try discriminate; try tauto; intros [? ?]; discriminate.
Qed.

Lemma generateUserID_range (unix : Z) :
  -10000 < generateUserID unix < 10000 /\
  (0 <= unix -> 0 <= generateUserID unix).
Proof.
  unfold generateUserID.
  pose proof (Z.rem_bound_abs unix 10000 ltac:(lia)) as Hb.
  assert (Hint : is_int (Z.rem unix 10000)).
  { destruct int_range as [Hmin Hmax]. unfold is_int.
    rewrite Hmin, Hmax. lia. }
  rewrite (wrap_int _ Hint). split; [lia |].
  intros Hu. apply Z.rem_nonneg; lia.
Qed.

End UsersFacts.

(** X3: [createUser] returns a user if and only if the username is not
    empty and the email contains '@' and '.'; exactly one of the user and
    the error is nil; the user carries the username and the email as
    given, and an ID strictly between -10000 and 10000, which is not
    negative when the clock is not before 1970. *)
Theorem createUser_contract (unix : Z) (username email : string) :
  let user := fst (Users.createUser unix username email) in
  let err := snd (Users.createUser unix username email) in
  (err = Go.nil
   <-> username <> EmptyString
       /\ In "@"%char (list_ascii_of_string email)
       /\ In "."%char (list_ascii_of_string email)) /\
  (user = None <-> err <> Go.nil) /\
  (forall u, user = Some u ->
     Users.Username u = username /\ Users.Email u = email /\
     -10000 < Users.ID u < 10000 /\ (0 <= unix -> 0 <= Users.ID u)).
Proof.
  cbv zeta. unfold Users.createUser.
  pose proof (validateEmail_nil email) as Hv.
  destruct (String.eqb_spec username "") as [-> | Hne]; simpl.
  - split; [split; [discriminate | intros [H _]; contradiction] |].
    split; [split; [discriminate | reflexivity] | discriminate].
  - destruct (Validation.validateEmail email) as [msg |]; simpl.
    + split.
      { split; [discriminate |]. intros [_ H]. apply Hv in H. discriminate. }
      split; [split; [discriminate | reflexivity] | discriminate].
    + split.
      { split; [| reflexivity]. intros _. split; [exact Hne |].
        apply Hv. reflexivity. }
      split.
      { split; [discriminate |]. intros H. exfalso. apply H. reflexivity. }
      intros u Hu. injection Hu as <-. simpl.
      pose proof (generateUserID_range unix) as [Hr Hpos]. auto.
Qed.

(** X4: a user made by [createUser] is processed by [processUserData]
    without an error if and only if the email is accepted and the
    username has at least three bytes: [createUser] accepts the usernames
    of one or two bytes that [processUserData] refuses. *)
Theorem createUser_then_processUserData (unix : Z) (username email : string) :
  snd (Users.processUserData (fst (Users.createUser unix username email)))
  = Go.nil
  <-> (3 <= String.length username)%nat
      /\ In "@"%char (list_ascii_of_string email)
      /\ In "."%char (list_ascii_of_string email).
Proof.
  unfold Users.createUser.
  pose proof (validateEmail_nil email) as Hv.
  destruct (String.eqb_spec username "") as [-> | Hne]; simpl.
  - split; [discriminate | intros [H _]; simpl in H; lia].
  - destruct (Validation.validateEmail email) as [msg |]; simpl.
    + split; [discriminate |]. intros [_ H]. apply Hv in H. discriminate.
    + destruct (Z.ltb_spec (Z.of_nat (String.length username)) 3); simpl.
      * split; [discriminate | intros [? _]; lia].
      * split; [| reflexivity]. intros _. split; [lia |].
        apply Hv. reflexivity.
Qed.

Lemma createUser_short_username :
  snd (Users.createUser 0 "ab" "a@b.c") = Go.nil /\
  snd (Users.processUserData (fst (Users.createUser 0 "ab" "a@b.c")))
  <> Go.nil.
Proof.
  split; [reflexivity |]. intros H.
  apply (proj1 (createUser_then_processUserData 0 "ab" "a@b.c")) in H.
  simpl in H. lia.
Defined.

(** ** batchProcess *)

Section BatchFacts.
Import Go Users.

Lemma batchProcess_loop_spec (items : list string) :
  forall (i : Z) (results warnings : list string),
  exists ws,
    batchProcess_loop i items results warnings
    = (results ++ map (fun item => ("processed_" ++ item)%string)
                      (filter (fun item => item <> EmptyString) items),
       warnings ++ ws) /\
    length ws
    = length (filter (fun item => (String.length item < 4)%nat) items) /\
    (forall k : nat, items !! k = Some EmptyString ->
       ("empty item at index " ++ pretty (i + Z.of_nat k))%string ∈ ws).
Proof.
  induction items as [| item items IH]; intros i results warnings.
  - exists []. simpl. rewrite !app_nil_r. repeat split.
    intros k Hk. discriminate.
  - cbn [batchProcess_loop]. rewrite !filter_cons.
    destruct (String.eqb_spec item "") as [-> | Hne].
    + destruct (IH (i + 1) results
                  (warnings ++ [("empty item at index " ++ pretty i)%string]))
        as (ws & Heq & Hlen & Hidx).
      exists (("empty item at index " ++ pretty i)%string :: ws).
      rewrite Heq.
      destruct (decide (EmptyString <> EmptyString)); [congruence |].
      destruct (decide (String.length "" < 4)%nat); [| simpl in *; lia].
      rewrite <- app_assoc. simpl. split; [reflexivity |].
      split; [f_equal; exact Hlen |].
      intros [| k] Hk.
      * rewrite Z.add_0_r. left.
      * right. replace (i + Z.of_nat (S k)) with (i + 1 + Z.of_nat k) by lia.
        apply Hidx. exact Hk.
    + destruct (decide (item <> EmptyString)); [| contradiction].
      destruct (Z.ltb_spec (Z.of_nat (String.length item)) 4) as [Hs | Hs];
        destruct (decide (String.length item < 4)%nat); try lia.
      * destruct (IH (i + 1)
                    (results ++ [("processed_" ++ item)%string])
                    (warnings ++ [("short item name: " ++ item)%string]))
          as (ws & Heq & Hlen & Hidx).
        exists (("short item name: " ++ item)%string :: ws).
        rewrite Heq, <- !app_assoc. simpl. split; [reflexivity |].
        split; [f_equal; exact Hlen |].
        intros [| k] Hk; [simpl in Hk; congruence |].
        right. replace (i + Z.of_nat (S k)) with (i + 1 + Z.of_nat k) by lia.
        apply Hidx. exact Hk.
      * destruct (IH (i + 1)
                    (results ++ [("processed_" ++ item)%string]) warnings)
          as (ws & Heq & Hlen & Hidx).
        exists ws. rewrite Heq, <- !app_assoc. simpl. split; [reflexivity |].
        split; [exact Hlen |].
        intros [| k] Hk; [simpl in Hk; congruence |].
        replace (i + Z.of_nat (S k)) with (i + 1 + Z.of_nat k) by lia.
        apply Hidx. exact Hk.
Qed.

End BatchFacts.

(** X5: [batchProcess] returns an error, with no results and no
    warnings, if and only if it is given no items. Otherwise the results
    are the non-empty items in their order, each with the prefix
    "processed_"; there is one warning for each item shorter than four
    bytes, the empty ones included; and the warning for an empty item
    names its index in the input. *)
Theorem batchProcess_contract (items : list string) :
  let results := fst (fst (Users.batchProcess items)) in
  let warnings := snd (fst (Users.batchProcess items)) in
  let err := snd (Users.batchProcess items) in
  (err <> Go.nil <-> items = []) /\
  results = map (fun item => ("processed_" ++ item)%string)
                (filter (fun item => item <> EmptyString) items) /\
  length warnings
  = length (filter (fun item => (String.length item < 4)%nat) items) /\
  (forall k : nat, items !! k = Some EmptyString ->
     ("empty item at index " ++ pretty (Z.of_nat k))%string ∈ warnings).
Proof.
  cbv zeta. unfold Users.batchProcess.
  destruct items as [| item items].
  - simpl. repeat split; discriminate.
  - destruct (Z.eqb_spec (Z.of_nat (length (item :: items))) 0) as [H | _];
      [simpl in H; lia |].
    destruct (batchProcess_loop_spec (item :: items) 0 [] [])
      as (ws & Heq & Hlen & Hidx).
    rewrite Heq. simpl fst. simpl snd.
    split; [split; [intros H; exfalso; apply H; reflexivity | discriminate] |].
    split; [reflexivity |]. split; [exact Hlen |].
    intros k Hk. apply (Hidx k Hk).
Qed.

(** ** The methods of Server *)

(** X6: the status that [GetStatus] returns tells whether the server is
    running and, when it is, on which port: two servers have the same
    status if and only if both are stopped, or both are running on the
    same port. *)
Theorem GetStatus_determines (s1 s2 : Users.Server) :
  Users.GetStatus s1 = Users.GetStatus s2
  <-> Users.Running s1 = Users.Running s2
      /\ (Users.Running s1 = true -> Users.Port s1 = Users.Port s2).
Proof.
  unfold Users.GetStatus.
  destruct (Users.Running s1), (Users.Running s2); split.
  - intros H. split; [reflexivity |]. intros _.
    apply (inj pretty). apply (inj (String.app "Running on port ")). exact H.
  - intros [_ H]. rewrite H by reflexivity. reflexivity.
  - intros H. discriminate H.
  - intros [H _]. discriminate H.
  - intros H. discriminate H.
  - intros [H _]. discriminate H.
  - intros _. split; [reflexivity | discriminate].
  - reflexivity.
Qed.

(** X7: a server that is stopped and is not started by any of the calls
    made on it stays stopped, whatever ports are set, and handles none of
    the requests: the line that reports the handling of a request is never
    printed. *)
Theorem stopped_server_handles_nothing (cs : list Users.call) (s : Users.Server) :
  Users.Running s = false ->
  Users.CallStart ∉ cs ->
  Users.Running (fst (Users.perform_all cs s)) = false /\
  Users.Name (fst (Users.perform_all cs s)) = Users.Name s /\
  forall request,
    ("  üì® " ++ Users.Name s ++ " handling: " ++ request ++ Users.newline)%string ∉ snd (Users.perform_all cs s).
Proof.
  revert s. induction cs as [| c cs IH]; intros s Hstop Hcs.
  - simpl. repeat split; try assumption. intros request. apply not_elem_of_nil.
  - apply not_elem_of_cons in Hcs as [Hc Hcs]. cbn [Users.perform_all].
    destruct c as [| | r | p]; [congruence | | |]; cbn [Users.perform].
    + destruct (IH (Users.mkServer (Users.Name s) (Users.Port s) false)
                  eq_refl Hcs) as (IH1 & IH2 & IH3).
      unfold Users.Stop.
      destruct (Users.perform_all cs _) as [s2 out2]. simpl in *.
      repeat split; try assumption. intros request.
      apply not_elem_of_cons. split; [discriminate | apply IH3].
    + destruct (IH s Hstop Hcs) as (IH1 & IH2 & IH3).
      unfold Users.HandleRequest. rewrite Hstop. simpl negb. cbv iota.
      destruct (Users.perform_all cs s) as [s2 out2]. simpl in *.
      repeat split; try assumption. intros request.
      apply not_elem_of_cons. split; [discriminate | apply IH3].
    + destruct (IH (Users.mkServer (Users.Name s) p (Users.Running s))
                  Hstop Hcs) as (IH1 & IH2 & IH3).
      unfold Users.SetPort.
      destruct (Users.perform_all cs _) as [s2 out2]. simpl in *.
      repeat split; try assumption. intros request.
      apply not_elem_of_cons. split; [discriminate | apply IH3].
Qed.

Lemma stopped_server_handles_nothing_witness :
  let s := Users.mkServer "WebServer-1" 8080 false in
  let cs := [Users.CallHandleRequest "GET /api/users"; Users.CallSetPort 9090;
             Users.CallStop] in
  Users.Running s = false /\ (Users.CallStart ∉ cs) /\
  Users.Running (fst (Users.perform_all cs s)) = false.
Proof.
  intros s cs.
  assert (Hcs : Users.CallStart ∉ cs).
  { unfold cs. rewrite !not_elem_of_cons.
    repeat split; try discriminate. apply not_elem_of_nil. }
  split; [reflexivity |]. split; [exact Hcs |].
  exact (proj1 (stopped_server_handles_nothing cs s eq_refl Hcs)).
Defined.

(** ** The handlers of the backend package *)

Section HttpFacts.
Import Go Http.

Lemma HasPrefix_drop (prefix s : string) :
  Strings.HasPrefix s prefix = true ->
  s = (prefix ++ drop_bytes (String.length prefix) s)%string.
Proof.
  revert s. induction prefix as [| c prefix IH]; intros s H; simpl.
  - destruct s; reflexivity.
  - destruct s as [| d s]; simpl in H; [discriminate |].
    destruct (Ascii.eqb_spec c d) as [-> | _]; [| discriminate].
    change (String d s
            = String d (prefix ++ drop_bytes (String.length prefix) s)%string).
    f_equal. apply IH, H.
Qed.

Lemma HasPrefix_app (prefix rest : string) :
  Strings.HasPrefix (prefix ++ rest) prefix = true /\
  drop_bytes (String.length prefix) (prefix ++ rest) = rest.
Proof.
  induction prefix as [| c prefix [IH1 IH2]].
  - split; [destruct rest | destruct rest]; reflexivity.
  - change (String c prefix ++ rest)%string
      with (String c (prefix ++ rest)%string).
    cbn [Strings.HasPrefix String.length drop_bytes].
    rewrite Ascii.eqb_refl. split; assumption.
Qed.

(** The token test of the auth middleware is a test of the whole header. *)
Lemma bearer_token (authHeader : string) :
  (Strings.HasPrefix authHeader "Bearer " = true /\
   TrimPrefix authHeader "Bearer " = "valid-token-123"%string)
  <-> authHeader = "Bearer valid-token-123"%string.
Proof.
  split.
  - intros [Hp Ht]. unfold TrimPrefix in Ht. rewrite Hp in Ht.
    rewrite (HasPrefix_drop _ _ Hp), Ht. reflexivity.
  - intros ->. split; reflexivity.
Qed.

Lemma status_Header_Set (k v : string) (w : ResponseWriter) :
  status (Header_Set k v w) = status w.
Proof. reflexivity. Qed.

Lemma status_WriteHeader (code : Z) (w : ResponseWriter) :
  status (WriteHeader code w)
  = match status w with Some c => Some c | None => Some code end.
Proof. unfold WriteHeader. destruct (status w) eqn:H; [exact H | reflexivity]. Qed.

Lemma status_Write (c : chunk) (w : ResponseWriter) :
  status (Write c w)
  = match status w with Some c => Some c | None => Some StatusOK end.
Proof. unfold Write. cbn [status]. apply status_WriteHeader. Qed.

Lemma status_Error (msg : string) (code : Z) (w : ResponseWriter) :
  status (Error msg code w)
  = match status w with Some c => Some c | None => Some code end.
Proof.
  unfold Error. rewrite status_Write, status_WriteHeader.
  cbn [Header_Set status]. destruct (status w); reflexivity.
Qed.

Lemma status_Encode (encodable : payload -> bool) (v : payload)
  (w : ResponseWriter) (c : Z) :
  status w = Some c -> status (fst (Encode encodable v w)) = Some c.
Proof.
  intros H. unfold Encode. destruct (encodable v); cbn [fst]; [| exact H].
  rewrite status_Write, H. reflexivity.
Qed.

End HttpFacts.

(** X8: the auth middleware passes a request on to the next handler if
    and only if its Authorization header is exactly
    "Bearer valid-token-123". Every other request is answered with the
    status 401, "Invalid token" when the header begins with "Bearer " and
    "Unauthorized" when it does not, and neither the next handler nor the
    state of the server is touched. *)
Theorem authMiddleware_gate (next : Http.Handler) (r : Http.Request)
  (s : Http.server) (w : Http.ResponseWriter) :
  Http.authMiddleware next r s w
  = if decide (Http.Authorization r = "Bearer valid-token-123"%string)
    then next r s w
    else (s, Http.Error
               (if Strings.HasPrefix (Http.Authorization r) "Bearer "
                then "Invalid token" else "Unauthorized")%string
               401 w).
Proof.
  unfold Http.authMiddleware.
  pose proof (bearer_token (Http.Authorization r)) as Hb.
  destruct (Strings.HasPrefix (Http.Authorization r) "Bearer ") eqn:Hp;
    cbn [negb].
  - destruct (String.eqb_spec (Http.TrimPrefix (Http.Authorization r) "Bearer ")
                "valid-token-123") as [Ht | Ht]; cbn [negb].
    + destruct (decide _) as [_ | Hn]; [reflexivity |].
      exfalso. apply Hn, Hb. split; [reflexivity | exact Ht].
    + destruct (decide _) as [He | _]; [| reflexivity].
      exfalso. apply Ht. apply Hb in He. apply He.
  - destruct (decide _) as [He | _]; [| reflexivity].
    apply Hb in He. destruct He as [He _]. discriminate He.
Qed.

Section HandlerFacts.
Import Go Http.

Variable Atoi : string -> Z * error.
Variable Decode : string -> option CreateUserRequest.
Variable encodable : payload -> bool.

Lemma users_by_id_lookup (id : Z) :
  users_by_id !! id
  = if decide (id = 1) then Some (mkUser 1 "Alice Johnson" "alice@example.com" "admin")
    else if decide (id = 2) then Some (mkUser 2 "Bob Smith" "bob@example.com" "user")
    else if decide (id = 3) then Some (mkUser 3 "Charlie Brown" "charlie@example.com" "user")
    else None.
Proof.
  unfold users_by_id.
  repeat (case_decide; [subst; simplify_map_eq; reflexivity |]).
  rewrite !lookup_insert_ne by congruence. apply lookup_empty.
Qed.

Lemma handleGetUserByID_status (id : Z) (r : Request) (s : server)
  (w : ResponseWriter) :
  status w = None ->
  status (snd (handleGetUserByID encodable id r s w))
  = Some (if decide (id = 1 \/ id = 2 \/ id = 3) then 200 else 404) /\
  fst (handleGetUserByID encodable id r s w) = s.
Proof.
  intros Hw. unfold handleGetUserByID. rewrite users_by_id_lookup.
  repeat case_decide; try lia; cbn [fst snd];
    (split; [| reflexivity]);
    rewrite ?status_Error, ?Hw; try reflexivity;
    apply status_Encode; rewrite status_WriteHeader, Hw; reflexivity.
Qed.

End HandlerFacts.

(** X9: [userByIDHandler] answers a fresh response with one status, and
    in this order of precedence: 400 when nothing follows "/api/users/"
    in the path or when [Atoi] refuses what follows; then 405 when the
    method is not GET; then 404 when the number is not 1, 2 or 3; and 200
    otherwise. It leaves the state of the server as it is. *)
Theorem userByIDHandler_status (Atoi : string -> Z * Go.error)
  (encodable : Http.payload -> bool) (r : Http.Request) (s : Http.server) :
  let path := Http.TrimPrefix (Http.URLPath r) "/api/users/" in
  let res := Http.userByIDHandler Atoi encodable r s Http.fresh in
  fst res = s /\
  Http.status (snd res)
  = Some (if decide (path = EmptyString) then 400
          else if decide (snd (Atoi path) = Go.nil) then
            if decide (Http.Method r = "GET"%string) then
              if decide (fst (Atoi path) = 1 \/ fst (Atoi path) = 2
                         \/ fst (Atoi path) = 3)
              then 200 else 404
            else 405
          else 400).
Proof.
  cbv zeta. unfold Http.userByIDHandler.
  destruct (String.eqb_spec (Http.TrimPrefix (Http.URLPath r) "/api/users/") "")
    as [He | Hne].
  - rewrite He. cbn [fst snd]. split; [reflexivity |].
    rewrite status_Error. reflexivity.
  - destruct (decide (_ = EmptyString)) as [? | _]; [contradiction |].
    destruct (Atoi _) as [userID [msg |]]; cbn [fst snd].
    + split; [reflexivity |]. rewrite status_Error. reflexivity.
    + destruct (decide (None = Go.nil)) as [_ | H];
        [| exfalso; apply H; reflexivity].
      destruct (String.eqb_spec (Http.Method r) Http.MethodGet) as [Hm | Hm].
      * destruct (decide (Http.Method r = "GET"%string)) as [_ | ?];
          [| contradiction].
        destruct (handleGetUserByID_status encodable userID r s
                    (Http.Header_Set "Content-Type" "application/json" Http.fresh)
                    eq_refl) as [Hst Hs].
        split; [exact Hs | exact Hst].
      * destruct (decide (Http.Method r = "GET"%string)) as [? | _];
          [contradiction |].
        cbn [fst snd]. split; [reflexivity |].
        rewrite status_Error. reflexivity.
Qed.

(** X10: [healthHandler] answers a fresh response with 405 when the
    method is not GET and with 200 otherwise; it never answers with 500:
    the status 200 is sent before the encoding, so when the encoding
    fails the response keeps the status 200 and carries the text of the
    error as its body. *)
Theorem healthHandler_status (encodable : Http.payload -> bool)
  (r : Http.Request) (s : Http.server) :
  let res := Http.healthHandler encodable r s Http.fresh in
  Http.status (snd res)
  = Some (if decide (Http.Method r = "GET"%string) then 200 else 405) /\
  ((forall v, encodable v = false) -> Http.Method r = "GET"%string ->
   Http.status (snd res) = Some 200 /\
   Http.body (snd res)
   = [Http.Text ("Failed to encode response" ++ Http.newline)]).
Proof.
  cbv zeta. unfold Http.healthHandler.
  destruct (String.eqb_spec (Http.Method r) Http.MethodGet) as [Hm | Hm];
    cbn [negb].
  - destruct (decide (Http.Method r = "GET"%string)) as [_ | ?];
      [| contradiction].
    unfold Http.time_Now, Http.Encode.
    split.
    + destruct (encodable _); cbn [fst snd]; reflexivity.
    + intros Hnone _. rewrite Hnone. cbn [fst snd]. split; reflexivity.
  - destruct (decide (Http.Method r = "GET"%string)) as [? | _];
      [contradiction |].
    cbn [fst snd]. split; [reflexivity |]. intros _ ?. contradiction.
Qed.

Lemma healthHandler_status_witness :
  let r := Http.mkRequest "GET" "/api/health" "10.0.0.1:4000" "" "" in
  let s := Http.mkServer (fun _ => Http.mkTime 0 0) 0 ∅ [] in
  Http.status (snd (Http.healthHandler (fun _ => false) r s Http.fresh))
  = Some 200 /\
  Http.body (snd (Http.healthHandler (fun _ => false) r s Http.fresh))
  = [Http.Text ("Failed to encode response" ++ Http.newline)].
Proof.
  intros r s.
  exact (proj2 (healthHandler_status (fun _ => false) r s)
               (fun _ => eq_refl) eq_refl).
Defined.

(** X11: [usersHandler] answers a fresh response with 200 to GET; to POST
    with 201 when the body decodes to a request with a name and an email
    that are not empty, and with 400 otherwise; and with 405 to every
    other method. *)
Theorem usersHandler_status (Decode : string -> option Http.CreateUserRequest)
  (encodable : Http.payload -> bool) (r : Http.Request) (s : Http.server) :
  Http.status (snd (Http.usersHandler Decode encodable r s Http.fresh))
  = Some (if decide (Http.Method r = "GET"%string) then 200
          else if decide (Http.Method r = "POST"%string) then
            match Decode (Http.Body r) with
            | Some req =>
                if decide (Http.ReqName req <> EmptyString
                           /\ Http.ReqEmail req <> EmptyString)
                then 201 else 400
            | None => 400
            end
          else 405).
Proof.
  unfold Http.usersHandler.
  destruct (String.eqb_spec (Http.Method r) Http.MethodGet) as [Hg | Hg].
  - destruct (decide (Http.Method r = "GET"%string)); [| contradiction].
    unfold Http.handleGetUsers. cbn [snd].
    apply status_Encode. reflexivity.
  - destruct (decide (Http.Method r = "GET"%string)); [contradiction |].
    destruct (String.eqb_spec (Http.Method r) Http.MethodPost) as [Hp | Hp].
    + destruct (decide (Http.Method r = "POST"%string)); [| contradiction].
      unfold Http.handleCreateUser.
      destruct (Decode (Http.Body r)) as [req |]; cbn [snd];
        [| rewrite status_Error; reflexivity].
      destruct (String.eqb_spec (Http.ReqName req) "") as [Hn | Hn].
      { cbn [snd]. rewrite status_Error.
        destruct (decide _) as [[? _] | _]; [contradiction | reflexivity]. }
      destruct (String.eqb_spec (Http.ReqEmail req) "") as [He | He].
      { cbn [snd]. rewrite status_Error.
        destruct (decide _) as [[_ ?] | _]; [contradiction | reflexivity]. }
      destruct (decide _) as [_ | Hno]; [| exfalso; apply Hno; auto].
      unfold Http.generateUserID, Http.time_Now. cbn [snd].
      apply status_Encode. reflexivity.
    + destruct (decide (Http.Method r = "POST"%string)); [contradiction |].
      cbn [snd]. rewrite status_Error. reflexivity.
Qed.

(** X12: when [handleCreateUser] accepts a request, the user it writes
    has the name and the email of the request as they are (the format of
    the email is not checked), the role "user", and an ID strictly
    between -10000 and 10000 taken from the clock, which is read once. *)
Theorem handleCreateUser_created
  (Decode : string -> option Http.CreateUserRequest)
  (encodable : Http.payload -> bool) (r : Http.Request) (s : Http.server)
  (req : Http.CreateUserRequest) :
  Decode (Http.Body r) = Some req ->
  Http.ReqName req <> EmptyString ->
  Http.ReqEmail req <> EmptyString ->
  (forall v, encodable v = true) ->
  let res := Http.handleCreateUser Decode encodable r s Http.fresh in
  exists id,
    Http.body (snd res)
    = [Http.Json (Http.JUser
         (Http.mkUser id (Http.ReqName req) (Http.ReqEmail req) "user"))] /\
    -10000 < id < 10000 /\
    id = Go.wrap (Z.rem (Http.Unix (Http.clock s (Http.reads s))) 10000) /\
    Http.status (snd res) = Some 201 /\
    Http.reads (fst res) = S (Http.reads s) /\
    Http.requests (fst res) = Http.requests s.
Proof.
  intros Hd Hn He Henc. cbv zeta. unfold Http.handleCreateUser.
  rewrite Hd.
  destruct (String.eqb_spec (Http.ReqName req) "") as [? | _];
    [contradiction |].
  destruct (String.eqb_spec (Http.ReqEmail req) "") as [? | _];
    [contradiction |].
  unfold Http.generateUserID, Http.time_Now, Http.Encode.
  rewrite Henc. cbn [fst snd].
  eexists. split; [reflexivity |].
  split; [| repeat split].
  apply (generateUserID_range (Http.Unix (Http.clock s (Http.reads s)))).
Qed.

Lemma handleCreateUser_created_witness :
  let Decode := fun _ : string =>
    Some (Http.mkCreateUserRequest "Dana" "not-an-email") in
  let r := Http.mkRequest "POST" "/api/users" "10.0.0.1:4000" "" "{}" in
  let s := Http.mkServer (fun _ => Http.mkTime 1700012345 0) 0 ∅ [] in
  Http.body
    (snd (Http.handleCreateUser Decode (fun _ => true) r s Http.fresh))
  = [Http.Json (Http.JUser (Http.mkUser 2345 "Dana" "not-an-email" "user"))].
Proof.
  intros Decode r s.
  destruct (handleCreateUser_created Decode (fun _ => true) r s
              (Http.mkCreateUserRequest "Dana" "not-an-email") eq_refl
              ltac:(discriminate) ltac:(discriminate) (fun _ => eq_refl))
    as (id & Hbody & _ & Hid & _).
  rewrite Hbody, Hid. reflexivity.
Defined.

(** ** The middleware chains *)

Section ChainFacts.
Import Go Http.

Lemma body_Error (msg : string) (code : Z) (w : ResponseWriter) :
  body (Error msg code w) = body w ++ [Text (msg ++ newline)].
Proof.
  destruct w as [h [c |] sh b]; reflexivity.
Qed.

End ChainFacts.

(** X13: in the admin chain (logging, CORS, auth, rate limiting), a
    preflight request and a request without the valid token never reach
    the rate limiter or the final handler: the [requests] map is left as
    it is and no JSON is written. The preflight is answered with 200 and
    the other with 401, and both are logged with their start and their
    completion, for which the clock is read twice. *)
Theorem adminHandler_gatekeeping (encodable : Http.payload -> bool)
  (r : Http.Request) (s : Http.server) :
  Http.Method r = "OPTIONS"%string
  \/ Http.Authorization r <> "Bearer valid-token-123"%string ->
  let res := Http.adminHandler encodable r s Http.fresh in
  Http.requests (fst res) = Http.requests s /\
  Http.status (snd res)
  = Some (if decide (Http.Method r = "OPTIONS"%string) then 200 else 401) /\
  (forall v, Http.Json v ∉ Http.body (snd res)) /\
  Http.log (fst res)
  = Http.log s ++
    [Http.Started (Http.Method r) (Http.URLPath r) (Http.RemoteAddr r);
     Http.Completed (Http.Method r) (Http.URLPath r)
       (Backend.Sub (Http.monotonic (Http.clock s (S (Http.reads s))))
                    (Http.monotonic (Http.clock s (Http.reads s))))] /\
  Http.reads (fst res) = S (S (Http.reads s)).
Proof.
  intros Hr. cbv zeta.
  unfold Http.adminHandler, Http.loggingMiddleware, Http.corsMiddleware.
  unfold Http.time_Now at 1. unfold Http.log_Printf at 2.
  destruct (String.eqb_spec (Http.Method r) Http.MethodOptions) as [Hm | Hm].
  - destruct (decide (Http.Method r = "OPTIONS"%string)); [| contradiction].
    cbn. rewrite <- app_assoc. repeat split. intros v. apply not_elem_of_nil.
  - destruct (decide (Http.Method r = "OPTIONS"%string)); [contradiction |].
    destruct Hr as [? | Ha]; [contradiction |].
    unfold Http.authMiddleware.
    pose proof (bearer_token (Http.Authorization r)) as Hb.
    destruct (Strings.HasPrefix (Http.Authorization r) "Bearer ") eqn:Hp;
      cbn [negb].
    + destruct (String.eqb_spec
                  (Http.TrimPrefix (Http.Authorization r) "Bearer ")
                  "valid-token-123") as [Ht | Ht]; cbn [negb].
      * exfalso. apply Ha, Hb. split; [reflexivity | exact Ht].
      * cbn. rewrite <- app_assoc. repeat split.
        intros v. rewrite not_elem_of_cons. split; [discriminate |].
        apply not_elem_of_nil.
    + cbn. rewrite <- app_assoc. repeat split.
      intros v. rewrite not_elem_of_cons. split; [discriminate |].
      apply not_elem_of_nil.
Qed.

Lemma adminHandler_gatekeeping_witness :
  let r := Http.mkRequest "GET" "/admin" "10.0.0.1:4000" "Bearer guess" "" in
  let s := Http.mkServer (fun n => Http.mkTime 0 (Z.of_nat n)) 0
             (<["10.0.0.1:4000"%string := [0]]> ∅) [] in
  Http.Authorization r <> "Bearer valid-token-123"%string /\
  Http.requests (fst (Http.adminHandler (fun _ => true) r s Http.fresh))
  = Http.requests s /\
  Http.status (snd (Http.adminHandler (fun _ => true) r s Http.fresh))
  = Some 401.
Proof.
  intros r s.
  assert (Ha : Http.Authorization r <> "Bearer valid-token-123"%string)
    by discriminate.
  split; [exact Ha |].
  pose proof (adminHandler_gatekeeping (fun _ => true) r s (or_intror Ha)) as H.
  split; [exact (proj1 H) | exact (proj1 (proj2 H))].
Defined.

(** X14: a request with the valid token that is not a preflight reaches
    the rate limiter of the admin chain, with the instant of the second
    reading of the clock: the [requests] map becomes what [rateLimit]
    makes of it for the remote address; the answer is 429, with no JSON,
    exactly when that client has 10 or more instants of the last minute
    recorded, and otherwise the final handler writes its JSON with the
    status 200. *)
Theorem adminHandler_limited (encodable : Http.payload -> bool)
  (r : Http.Request) (s : Http.server) :
  Http.Method r <> "OPTIONS"%string ->
  Http.Authorization r = "Bearer valid-token-123"%string ->
  (forall v, encodable v = true) ->
  let now := Http.monotonic (Http.clock s (S (Http.reads s))) in
  let kept := filter (fun t => now - t <= Backend.Minute)
                     (Backend.recorded (Http.requests s) (Http.RemoteAddr r)) in
  let res := Http.adminHandler encodable r s Http.fresh in
  Http.requests (fst res)
  = fst (Backend.rateLimit (Http.requests s) (Http.RemoteAddr r) now) /\
  (if decide (10 <= length kept)%nat
   then Http.status (snd res) = Some 429 /\
        forall v, Http.Json v ∉ Http.body (snd res)
   else Http.status (snd res) = Some 200 /\
        exists m, Http.body (snd res) = [Http.Json (Http.JMap m)]).
Proof.
  intros Hm Ha Henc. cbv zeta.
  pose proof (rateLimit_client (Http.requests s) (Http.RemoteAddr r)
                (Http.monotonic (Http.clock s (S (Http.reads s))))) as Hc.
  cbv zeta in Hc.
  set (kept := filter _ (Backend.recorded _ _)) in *.
  unfold Http.adminHandler, Http.loggingMiddleware, Http.corsMiddleware,
    Http.authMiddleware, Http.rateLimitMiddleware, Http.time_Now,
    Http.log_Printf.
  destruct (String.eqb_spec (Http.Method r) Http.MethodOptions) as [? | _];
    [contradiction |].
  rewrite Ha.
  change (Strings.HasPrefix "Bearer valid-token-123" "Bearer ") with true.
  change (Http.TrimPrefix "Bearer valid-token-123" "Bearer ")
    with "valid-token-123"%string.
  change (String.eqb "valid-token-123" "valid-token-123") with true.
  cbn [negb Http.clock Http.reads Http.requests Http.log].
  rewrite Hc.
  destruct (Z.leb_spec 10 (Z.of_nat (length kept))) as [Hk | Hk];
    destruct (decide (10 <= length kept)%nat); try lia.
  - cbn [fst snd Http.requests]. split; [reflexivity |].
    split; [reflexivity |].
    intros v. rewrite body_Error. cbn [Http.body Http.Header_Set Http.fresh app].
    rewrite not_elem_of_cons. split; [discriminate |].
    apply not_elem_of_nil.
  - unfold Http.handler, Http.Encode. rewrite Henc.
    cbn [fst snd Http.requests]. split; [reflexivity |].
    split; [reflexivity |]. eexists. reflexivity.
Qed.

Lemma adminHandler_limited_witness :
  let r := Http.mkRequest "GET" "/admin" "10.0.0.1:4000"
             "Bearer valid-token-123" "" in
  let s := Http.mkServer (fun n => Http.mkTime 0 (Z.of_nat n)) 0 ∅ [] in
  Http.Method r <> "OPTIONS"%string /\
  Http.requests (fst (Http.adminHandler (fun _ => true) r s Http.fresh))
  = fst (Backend.rateLimit ∅ "10.0.0.1:4000" 1).
Proof.
  intros r s.
  assert (Hm : Http.Method r <> "OPTIONS"%string) by discriminate.
  split; [exact Hm |].
  pose proof (adminHandler_limited (fun _ => true) r s Hm eq_refl
                (fun _ => eq_refl)) as H.
  exact (proj1 H).
Defined.

(** ** Mutual exclusion and progress of the counter *)

Section ProgressFacts.
Import Go Counter Progress.

Lemma in_critical_section_holds (g : goroutine) :
  in_critical_section g <-> holds_mutex g = 1.
Proof.
  unfold in_critical_section, holds_mutex.
  destruct (at_point g); split; intros H; try lia; try tauto;
    destruct H as [H | [H | H]]; discriminate.
Qed.

Lemma sum_over_positive (f : goroutine -> Z) (gs : list goroutine) :
  0 < sum_over f gs -> exists t g, gs !! t = Some g /\ f g <> 0.
Proof.
  induction gs as [| g gs IH]; simpl; [lia |]. intros H.
  destruct (Z.eq_dec (f g) 0) as [Hz | Hnz].
  - destruct IH as (t & g' & Hl & Hf); [lia |].
    exists (S t), g'. split; assumption.
  - exists O, g. split; [reflexivity | exact Hnz].
Qed.

Lemma not_all_done (gs : list goroutine) :
  forallb (fun g => bool_decide (at_point g = Done)) gs = false ->
  exists t g, gs !! t = Some g /\ at_point g <> Done.
Proof.
  induction gs as [| g gs IH]; simpl; [discriminate |]. intros H.
  apply andb_false_iff in H as [H | H].
  - apply bool_decide_eq_false in H. exists O, g. split; [reflexivity | exact H].
  - destruct (IH H) as (t & g' & Hl & Hd). exists (S t), g'. split; assumption.
Qed.

(** A goroutine that does not wait for a held mutex and has not returned
    can take its step. *)
Lemma step_enabled (t : nat) (s : state) (g : goroutine) :
  goroutines s !! t = Some g ->
  at_point g <> Done ->
  (at_point g = Lock -> mu_locked s = false) ->
  exists s', step t s = Some s'.
Proof.
  intros Hg Hd Hl. unfold step. rewrite Hg. simpl.
  destruct (at_point g) eqn:Hp; try (eexists; reflexivity);
    [| contradiction].
  rewrite (Hl eq_refl). eexists. reflexivity.
Qed.

Lemma remaining_nonneg (c : Z) (g : goroutine) :
  well_placed c g -> 0 <= remaining g /\ (remaining g = 0 <-> at_point g = Done).
Proof.
  unfold well_placed, remaining, iterations.
  intros (Hi & Hlt & Hdone & _).
  destruct (at_point g) eqn:Hp;
    try (assert (Hlt' : loop_i g < 1000) by (apply Hlt; discriminate));
    (split; [lia | split; [intros; first [reflexivity | lia]
                          | intros H; first [discriminate H | reflexivity]]]).
Qed.

(** Every step takes one off the steps that remain. *)
Lemma step_remaining (t : nat) (s s' : state) :
  invariant s -> step t s = Some s' ->
  sum_over remaining (goroutines s')
  = sum_over remaining (goroutines s) - 1.
Proof.
  intros Hinv Hstep.
  pose proof (invariant_counter_bounds s Hinv) as Hbound.
  destruct Hinv as [Hlen Hcnt Hmu Heach]. unfold step in Hstep.
  destruct (goroutines s !! t) as [g |] eqn:Hg; simpl in Hstep;
    [| discriminate].
  pose proof (Forall_lookup_1 _ _ _ _ Heach Hg) as Hwp.
  destruct g as [p i v]. unfold well_placed in Hwp. cbn in Hwp, Hstep.
  destruct Hwp as (Hi & Hlt & Hdone & Hst). unfold iterations in *.
  destruct p; cbn in Hstep;
    try (destruct (mu_locked s); [discriminate |]);
    try discriminate;
    injection Hstep as <-; cbn [goroutines];
    rewrite (sum_over_insert _ _ _ _ _ Hg); unfold remaining, iterations;
    cbn [at_point loop_i].
  - destruct (Z.ltb_spec i 1000); lia.
  - lia.
  - lia.
  - lia.
  - lia.
  - assert (i < 1000) by (apply Hlt; discriminate).
    rewrite int_add_small by lia. lia.
Qed.

Lemma run_remaining (schedule : list nat) (s s' : state) :
  invariant s -> run schedule s = Some s' ->
  Z.of_nat (length schedule) + sum_over remaining (goroutines s')
  = sum_over remaining (goroutines s).
Proof.
  revert s. induction schedule as [| t schedule IH]; intros s Hinv Hrun;
    simpl in Hrun.
  - injection Hrun as <-. simpl. lia.
  - destruct (step t s) as [s1 |] eqn:Hstep; simpl in Hrun; [| discriminate].
    pose proof (step_remaining t s s1 Hinv Hstep) as H1.
    pose proof (IH s1 (step_invariant t s s1 Hinv Hstep) Hrun) as H2.
    cbn [length]. lia.
Qed.

Lemma remaining_zero_all_done (c : Z) (gs : list goroutine) :
  Forall (well_placed c) gs ->
  (sum_over remaining gs = 0
   <-> forallb (fun g => bool_decide (at_point g = Done)) gs = true) /\
  0 <= sum_over remaining gs.
Proof.
  induction 1 as [| g gs Hg _ [IH1 IH2]]; simpl.
  - split; [split; reflexivity | lia].
  - destruct (remaining_nonneg c g Hg) as [Hn Hz].
    split; [| lia]. rewrite andb_true_iff, bool_decide_eq_true.
    split.
    + intros Hs. split; [apply Hz; lia | apply IH1; lia].
    + intros [Hd Hall]. apply Hz in Hd. apply IH1 in Hall. lia.
Qed.

End ProgressFacts.

(** X15: mutual exclusion. In every state that a run of the counter
    example reaches, at most one goroutine is between [mu.Lock()] and
    [mu.Unlock()], and the mutex is held whenever one is. *)
Theorem counter_mutual_exclusion (schedule : list nat) (s : Counter.state)
  (i j : nat) (gi gj : Counter.goroutine) :
  Counter.run schedule Counter.init = Some s ->
  Counter.goroutines s !! i = Some gi ->
  Counter.goroutines s !! j = Some gj ->
  Progress.in_critical_section gi ->
  Progress.in_critical_section gj ->
  i = j /\ Counter.mu_locked s = true.
Proof.
  intros Hrun Hi Hj Hci Hcj.
  pose proof (run_invariant schedule _ _ invariant_init Hrun)
    as [_ _ Hmu _].
  apply in_critical_section_holds in Hci, Hcj.
  pose proof (sum_over_lookup Counter.holds_mutex _ _ _
                holds_mutex_nonneg Hi) as Hone.
  split.
  - destruct (decide (i = j)) as [? | Hne]; [assumption |].
    pose proof (sum_over_two Counter.holds_mutex _ _ _ _ _
                  holds_mutex_nonneg Hne Hi Hj) as Htwo.
    rewrite Hmu in Htwo. destruct (Counter.mu_locked s); lia.
  - rewrite Hmu in Hone. destruct (Counter.mu_locked s); [reflexivity | lia].
Qed.

Lemma counter_mutual_exclusion_witness :
  exists s g,
    Counter.run [0; 0; 0]%nat Counter.init = Some s /\
    Counter.goroutines s !! 0%nat = Some g /\
    Progress.in_critical_section g /\
    Counter.mu_locked s = true.
Proof.
  eexists _, _.
  assert (Hrun : Counter.run [0; 0; 0]%nat Counter.init
                 = Some (Counter.State 0 true
                           (Counter.Goroutine Counter.Store 0 0
                            :: replicate 4 (Counter.Goroutine Counter.LoopTest 0 0))))
    by reflexivity.
  assert (Hc : Progress.in_critical_section (Counter.Goroutine Counter.Store 0 0))
    by (right; left; reflexivity).
  split; [exact Hrun |]. split; [reflexivity |]. split; [exact Hc |].
  exact (proj2 (counter_mutual_exclusion _ _ 0%nat 0%nat _ _ Hrun
                  eq_refl eq_refl Hc Hc)).
Defined.

(** X16: no deadlock. In every state that a run of the counter example
    reaches, unless all the goroutines have returned, some goroutine can
    take a step. *)
Theorem counter_no_deadlock (schedule : list nat) (s : Counter.state) :
  Counter.run schedule Counter.init = Some s ->
  Counter.all_done s = false ->
  exists t s', Counter.step t s = Some s'.
Proof.
  intros Hrun Hnd.
  pose proof (run_invariant schedule _ _ invariant_init Hrun)
    as [_ _ Hmu _].
  destruct (Counter.mu_locked s) eqn:Hlocked.
  - destruct (sum_over_positive Counter.holds_mutex (Counter.goroutines s))
      as (t & g & Hg & Hh); [lia |].
    exists t. apply (step_enabled t s g Hg).
    + intros Hd. unfold Counter.holds_mutex in Hh. rewrite Hd in Hh. lia.
    + intros Hl. unfold Counter.holds_mutex in Hh. rewrite Hl in Hh. lia.
  - destruct (not_all_done _ Hnd) as (t & g & Hg & Hd).
    exists t. apply (step_enabled t s g Hg Hd). intros _. exact Hlocked.
Qed.

Lemma counter_no_deadlock_witness :
  exists t s',
    Counter.step t (Counter.State 0 true
      (Counter.Goroutine Counter.Store 0 0
       :: replicate 4 (Counter.Goroutine Counter.Lock 0 0))) = Some s'.
Proof.
  apply (counter_no_deadlock [0; 1; 2; 3; 4; 0; 0]%nat); reflexivity.
Defined.

(** X17: termination. A run of the counter example of [n] steps leaves
    exactly 30005 - n steps to take, so no run is longer than 30005
    steps, and the goroutines have all returned exactly in the runs of
    30005 steps. *)
Theorem counter_run_length (schedule : list nat) (s : Counter.state) :
  Counter.run schedule Counter.init = Some s ->
  Z.of_nat (length schedule) <= 30005 /\
  Z.of_nat (length schedule)
  + Counter.sum_over Progress.remaining (Counter.goroutines s) = 30005 /\
  (Counter.all_done s = true <-> Z.of_nat (length schedule) = 30005).
Proof.
  intros Hrun.
  pose proof (run_remaining schedule _ _ invariant_init Hrun) as Hrem.
  change (Counter.sum_over Progress.remaining (Counter.goroutines Counter.init))
    with 30005 in Hrem.
  pose proof (run_invariant schedule _ _ invariant_init Hrun)
    as [_ _ _ Heach].
  destruct (remaining_zero_all_done _ _ Heach) as [Hz Hn].
  split; [lia |]. split; [exact Hrem |].
  unfold Counter.all_done. rewrite <- Hz. lia.
Qed.

Lemma counter_run_length_witness :
  exists s,
    Counter.run Counter.sequential_schedule Counter.init = Some s /\
    Counter.all_done s = true.
Proof.
  assert (H : exists s,
    Counter.run Counter.sequential_schedule Counter.init = Some s)
    by (vm_compute; eexists; reflexivity).
  destruct H as [s Hrun]. exists s. split; [exact Hrun |].
  apply (proj2 (proj2 (counter_run_length _ s Hrun))).
  vm_compute. reflexivity.
Defined.

(** ** The rate limiter and the requests it has let through *)

Section LimiterFacts.
Import Go Backend Limiter.

Lemma serve_log_snoc (history : list (string * Z)) (r : string * Z) :
  serve_log (history ++ [r]) = record_request (serve_log history) r.
Proof. unfold serve_log. rewrite foldl_app. reflexivity. Qed.

Lemma serve_snoc (history : list (string * Z)) (r : string * Z) :
  serve (history ++ [r]) = fst (rateLimit (serve history) r.1 r.2).
Proof. unfold serve. rewrite foldl_app. reflexivity. Qed.

(** The log is kept beside the map of the rate limiter. *)
Lemma serve_log_serve (history : list (string * Z)) :
  (serve_log history).1 = serve history.
Proof.
  induction history as [| r history IH] using rev_ind; [reflexivity |].
  rewrite serve_log_snoc, serve_snoc. unfold record_request. rewrite IH.
  destruct (rateLimit (serve history) r.1 r.2). reflexivity.
Qed.

Lemma served_snoc (history : list (string * Z)) (r : string * Z)
  (clientIP : string) :
  served (history ++ [r]) clientIP
  = served history clientIP ++
    (if decide (r.1 = clientIP) then
       match snd (rateLimit (serve history) r.1 r.2) with
       | ServeNext => [r.2]
       | Error _ _ => []
       end
     else []).
Proof.
  unfold served. rewrite serve_log_snoc. unfold record_request.
  rewrite serve_log_serve.
  destruct (rateLimit (serve history) r.1 r.2) as [m [msg code |]];
    cbn [fst snd].
  - destruct (decide _); rewrite app_nil_r; reflexivity.
  - rewrite filter_app, map_app, filter_cons, filter_nil.
    destruct (decide (r.1 = clientIP)); reflexivity.
Qed.

Lemma filter_filter_weaker (P Q : Z -> Prop) `{!forall x, Decision (P x)}
  `{!forall x, Decision (Q x)} (l : list Z) :
  (forall x, P x -> Q x) -> filter P (filter Q l) = filter P l.
Proof.
  intros Himp. induction l as [| x l IH]; [reflexivity |].
  rewrite !filter_cons.
  destruct (decide (Q x)) as [Hq | Hq].
  - rewrite filter_cons. destruct (decide (P x)); rewrite IH; reflexivity.
  - destruct (decide (P x)) as [Hp | _]; [| exact IH].
    exfalso. apply Hq, Himp, Hp.
Qed.

Lemma in_order_snoc (history : list (string * Z)) (r : string * Z) :
  in_order (history ++ [r]) ->
  in_order history /\ (forall r', r' ∈ history -> r'.2 <= r.2).
Proof.
  intros Ho. split.
  - intros i j a b Hij Ha Hb. apply (Ho i j a b Hij).
    + apply lookup_app_l_Some, Ha.
    + apply lookup_app_l_Some, Hb.
  - intros r' Hin. apply list_elem_of_lookup in Hin as [i Hi].
    apply (Ho i (length history) r' r).
    + apply lookup_lt_Some in Hi. lia.
    + apply lookup_app_l_Some, Hi.
    + rewrite lookup_app_r by lia. rewrite Nat.sub_diag. reflexivity.
Qed.

(** Seen from an instant that is not before the requests, the recorded
    instants of a client and the instants of its requests that were
    passed on are the same within the last minute. *)
Lemma recorded_served (history : list (string * Z)) :
  in_order history ->
  forall (T : Z) (clientIP : string),
    (forall r, r ∈ history -> r.2 <= T) ->
    filter (fun t => T - t <= Minute) (recorded (serve history) clientIP)
    = filter (fun t => T - t <= Minute) (served history clientIP).
Proof.
  induction history as [| r history IH] using rev_ind;
    intros Ho T clientIP HT; [reflexivity |].
  destruct (in_order_snoc _ _ Ho) as [Ho' Hle].
  assert (HT' : forall r', r' ∈ history -> r'.2 <= T).
  { intros r' Hin. apply HT. apply elem_of_app. left. exact Hin. }
  assert (HrT : r.2 <= T).
  { apply HT. apply elem_of_app. right. apply list_elem_of_singleton.
    reflexivity. }
  rewrite served_snoc, serve_snoc, filter_app, <- (IH Ho' T clientIP HT').
  destruct (decide (r.1 = clientIP)) as [<- | Hne].
  - rewrite rateLimit_recorded, rateLimit_client. cbv zeta.
    destruct (10 <=? _); cbn [snd].
    + rewrite filter_nil, app_nil_r.
      apply filter_filter_weaker. intros x Hx. lia.
    + rewrite filter_app. f_equal.
      apply filter_filter_weaker. intros x Hx. lia.
  - unfold recorded. rewrite rateLimit_others by congruence.
    rewrite filter_nil, app_nil_r. reflexivity.
Qed.

End LimiterFacts.

(** X18: the sliding window of the rate limiter. When the clock does not
    go back between the requests, a request is answered with 429 if and
    only if 10 or more requests of the same client were passed on within
    the minute before it; the requests that were refused do not count.
    So, after any request, no more than 10 requests of the client were
    passed on within the last minute. *)
Theorem rateLimit_sliding_window (history : list (string * Z))
  (clientIP : string) (now : Z) :
  Limiter.in_order (history ++ [(clientIP, now)]) ->
  let before :=
    filter (fun t => now - t <= Backend.Minute)
           (Limiter.served history clientIP) in
  let after :=
    filter (fun t => now - t <= Backend.Minute)
           (Limiter.served (history ++ [(clientIP, now)]) clientIP) in
  (snd (Backend.rateLimit (Backend.serve history) clientIP now)
   = Backend.Error "Rate limit exceeded" 429
   <-> (10 <= length before)%nat) /\
  (length after <= 10)%nat.
Proof.
  intros Ho. cbv zeta.
  destruct (in_order_snoc _ _ Ho) as [Ho' Hle].
  pose proof (recorded_served history Ho' now clientIP Hle) as Hrs.
  rewrite served_snoc. cbn [fst snd].
  destruct (decide (clientIP = clientIP)) as [_ | ?]; [| contradiction].
  rewrite rateLimit_client. cbv zeta. rewrite Hrs.
  rewrite filter_app.
  destruct (Z.leb_spec 10 (Z.of_nat (length
    (filter (fun t => now - t <= Backend.Minute)
            (Limiter.served history clientIP))))) as [Hk | Hk]; cbn [snd].
  - split; [split; [intros _; lia | reflexivity] |].
    rewrite filter_nil, app_nil_r.
    rewrite <- Hrs.
    etransitivity; [apply length_filter | apply serve_bounded].
  - split; [split; [discriminate | lia] |].
    rewrite length_app.
    pose proof (length_filter (fun t => now - t <= Backend.Minute) [now]).
    simpl in *. lia.
Qed.

Lemma rateLimit_sliding_window_witness :
  let history := [("a"%string, 0); ("b"%string, 5); ("a"%string, 7)] in
  Limiter.in_order (history ++ [("a"%string, 9)]) /\
  (length (filter (fun t => (9 - t <= Backend.Minute)%Z)
                  (Limiter.served (history ++ [("a"%string, 9%Z)]) "a"))
   <= 10)%nat.
Proof.
  intros history.
  assert (Ho : Limiter.in_order (history ++ [("a"%string, 9)])).
  { intros i j r r' Hij Hi Hj.
    destruct i as [| [| [| [| i]]]]; destruct j as [| [| [| [| j]]]];
      simpl in Hi, Hj; try discriminate; try lia;
      injection Hi as <-; injection Hj as <-; simpl; lia. }
  split; [exact Ho |].
  exact (proj2 (rateLimit_sliding_window history "a" 9 Ho)).
Defined.

(** ** The pipeline *)

Section PipelineFacts.
Import Go WorkerPool Pipeline.

Lemma sent_app (acts acts' : list action) :
  sent (acts ++ acts') = sent acts ++ sent acts'.
Proof.
  induction acts as [| a acts IH]; [reflexivity |].
  destruct a; simpl; rewrite IH; reflexivity.
Qed.

Lemma generateNumbers_loop_range (turns : nat) (end_ : Z) :
  end_ < max_int ->
  forall i, is_int i -> end_ - i + 1 <= Z.of_nat turns ->
    sent (fst (generateNumbers_loop turns i end_)) = seqZ i (end_ - i + 1) /\
    snd (generateNumbers_loop turns i end_) = true.
Proof.
  intros Hend. destruct int_range as [Hmin Hmax].
  induction turns as [| turns IH]; intros i Hi Hlen; simpl.
  - destruct (Z.leb_spec i end_); [lia |]. simpl.
    rewrite seqZ_nil by lia. split; reflexivity.
  - destruct (Z.leb_spec i end_) as [Hle | Hgt].
    + assert (Hi1 : int_add i 1 = i + 1).
      { unfold int_add. apply wrap_int. unfold is_int in *.
        rewrite Hmin, Hmax in *. lia. }
      destruct (IH (int_add i 1)) as [IH1 IH2].
      { rewrite Hi1. unfold is_int in *. rewrite Hmin, Hmax in *. lia. }
      { rewrite Hi1. lia. }
      destruct (generateNumbers_loop turns (int_add i 1) end_) as [acts closed].
      simpl in *. rewrite IH1, Hi1. split; [| exact IH2].
      rewrite (seqZ_cons i) by lia. f_equal. f_equal; lia.
    + simpl. rewrite seqZ_nil by lia. split; reflexivity.
Qed.

Lemma generateNumbers_loop_max (turns : nat) :
  forall i, is_int i ->
    snd (generateNumbers_loop turns i max_int) = false /\
    length (sent (fst (generateNumbers_loop turns i max_int))) = turns.
Proof.
  induction turns as [| turns IH]; intros i Hi; simpl;
    (destruct (Z.leb_spec i max_int) as [_ | Hgt];
       [| unfold is_int in Hi; lia]).
  - split; reflexivity.
  - destruct (IH (int_add i 1) (wrap_is_int _)) as [IH1 IH2].
    destruct (generateNumbers_loop turns (int_add i 1) max_int) as [acts closed].
    simpl in *. split; [exact IH1 | f_equal; exact IH2].
Qed.

(** Wrapping keeps the parity. *)
Lemma even_wrap (x : Z) : Z.even (wrap x) = Z.even x.
Proof.
  unfold wrap.
  change (2 ^ (int_bits - 1)) with 9223372036854775808.
  change (2 ^ int_bits) with 18446744073709551616.
  rewrite Z.even_sub, Zmod_eq_full by lia.
  rewrite Z.even_sub, Z.even_add, Z.even_mul.
  change (Z.even 9223372036854775808) with true.
  change (Z.even 18446744073709551616) with true.
  rewrite orb_true_r. destruct (Z.even x); reflexivity.
Qed.

Lemma rem_2_even (n : Z) : (wrap (Z.rem n 2) =? 0) = Z.even n.
Proof.
  assert (Hint : is_int (Z.rem n 2)).
  { destruct int_range as [Hmin Hmax]. unfold is_int. rewrite Hmin, Hmax.
    pose proof (Z.rem_bound_abs n 2 ltac:(lia)). lia. }
  rewrite (wrap_int _ Hint).
  pose proof (Z.quot_rem' n 2) as Hq.
  pose proof (Z.rem_bound_abs n 2 ltac:(lia)) as Hb.
  rewrite Hq at 2. rewrite Z.add_comm, Z.even_add_mul_2.
  assert (Hr : Z.rem n 2 = -1 \/ Z.rem n 2 = 0 \/ Z.rem n 2 = 1) by lia.
  destruct Hr as [-> | [-> | ->]]; reflexivity.
Qed.

Lemma stages_even_squares (received : list Z) :
  sent (filterEven (sent (squareNumbers received)))
  = map (fun n => int_mul n n) (filter (fun n => Z.even n) received).
Proof.
  induction received as [| n received IH]; [reflexivity |].
  cbn [squareNumbers]. rewrite sent_app. cbn [sent app filterEven].
  rewrite sent_app. cbn [sent]. rewrite IH, rem_2_even, filter_cons.
  unfold int_mul at 1. rewrite even_wrap, Z.even_mul, orb_diag.
  destruct (Z.even n) eqn:He; cbn [sent app].
  - destruct (decide (Is_true true)) as [_ | Hn];
      [reflexivity | exfalso; apply Hn; exact I].
  - destruct (decide (Is_true false)) as [Hn | _];
      [destruct Hn | reflexivity].
Qed.

End PipelineFacts.

(** X19: the last two stages of the pipeline send, for any numbers the
    squaring stage receives, exactly the squares (in the arithmetic of
    [int]) of the even ones among them, in their order: a square is even
    exactly when the number is, also when the square wraps. *)
Theorem pipeline_stages (received : list Z) :
  WorkerPool.sent (Pipeline.filterEven
                     (WorkerPool.sent (Pipeline.squareNumbers received)))
  = map (fun n => Go.int_mul n n) (filter (fun n => Z.even n) received).
Proof. apply stages_even_squares. Qed.

(** X20: for a generator from [start] up to an [end_] below the largest
    [int], given the turns it needs, the generator closes its channel
    after sending the numbers from [start] to [end_] (none when
    [end_ < start]), and the loop of [PipelinePattern] receives exactly
    the squares of the even numbers from [start] to [end_], in order. *)
Theorem pipeline_even_squares (turns : nat) (start end_ : Z) :
  Go.is_int start -> end_ < Go.max_int ->
  end_ - start + 1 <= Z.of_nat turns ->
  snd (Pipeline.generateNumbers turns start end_) = true /\
  WorkerPool.sent (fst (Pipeline.generateNumbers turns start end_))
  = seqZ start (end_ - start + 1) /\
  Pipeline.pipeline_results turns start end_
  = map (fun n => Go.int_mul n n)
        (filter (fun n => Z.even n) (seqZ start (end_ - start + 1))).
Proof.
  intros Hs He Ht.
  destruct (generateNumbers_loop_range turns end_ He start Hs Ht) as [H1 H2].
  split; [exact H2 |]. split; [exact H1 |].
  unfold Pipeline.pipeline_results, Pipeline.generateNumbers.
  cbv zeta. rewrite H1. apply stages_even_squares.
Qed.

Lemma pipeline_even_squares_witness :
  Go.is_int 1 /\ 10 < Go.max_int /\
  Pipeline.pipeline_results 10 1 10 = [4; 16; 36; 64; 100].
Proof.
  assert (Hs : Go.is_int 1) by (vm_compute; split; discriminate).
  assert (He : 10 < Go.max_int) by reflexivity.
  split; [exact Hs |]. split; [exact He |].
  rewrite (proj2 (proj2 (pipeline_even_squares 10 1 10 Hs He ltac:(simpl; lia)))).
  reflexivity.
Defined.

(** X21: with the largest [int] as its end, the generator never closes
    its channel: the loop test always holds and [i++] wraps, so it sends
    a number at every turn, and the stages after it never finish. *)
Theorem generateNumbers_never_closes (turns : nat) (start : Z) :
  Go.is_int start ->
  snd (Pipeline.generateNumbers turns start Go.max_int) = false /\
  length (WorkerPool.sent (fst (Pipeline.generateNumbers turns start Go.max_int)))
  = turns.
Proof. intros Hs. apply generateNumbers_loop_max, Hs. Qed.

Lemma generateNumbers_never_closes_witness :
  Go.is_int (Go.max_int - 1) /\
  snd (Pipeline.generateNumbers 3 (Go.max_int - 1) Go.max_int) = false /\
  WorkerPool.sent (fst (Pipeline.generateNumbers 3 (Go.max_int - 1) Go.max_int))
  = [Go.max_int - 1; Go.max_int; Go.min_int].
Proof.
  assert (Hs : Go.is_int (Go.max_int - 1)) by (vm_compute; split; discriminate).
  split; [exact Hs |].
  split; [exact (proj1 (generateNumbers_never_closes 3 _ Hs)) |].
  vm_compute. reflexivity.
Defined.

(** ** The result collector *)

Section CollectorFacts.
Import Go Collector.

Lemma resultCollector_loop_spec (results : list Result) (expectedResults : Z) :
  forall collected totalDuration,
    0 <= collected ->
    collected + Z.of_nat (length results) <= max_int ->
    let k := Z.min (Z.of_nat (length results))
                   (Z.max 1 (expectedResults - collected)) in
    let res := resultCollector_loop results expectedResults collected
                 totalDuration in
    fst (fst res) = collected + k /\
    snd (fst res)
    = Collections.sum_loop totalDuration
        (map Duration (take (Z.to_nat k) results)) /\
    Z.of_nat (length (snd res)) = k.
Proof.
  destruct int_range as [Hmin Hmax].
  induction results as [| result results IH];
    intros collected totalDuration Hc Hlen; cbv zeta.
  - simpl. replace (Z.min 0 _) with 0 by lia. repeat split; lia.
  - cbn [resultCollector_loop length] in *.
    rewrite Nat2Z.inj_succ in *.
    assert (H1 : int_add collected 1 = collected + 1).
    { unfold int_add. apply wrap_int. unfold is_int.
      rewrite Hmin, Hmax in *. lia. }
    rewrite H1.
    destruct (Z.leb_spec expectedResults (collected + 1)) as [Hb | Hb].
    + replace (Z.min _ _) with 1 by lia. cbn. repeat split; lia.
    + specialize (IH (collected + 1) (int_add totalDuration (Duration result))
                     ltac:(lia) ltac:(lia)).
      cbv zeta in IH.
      destruct (resultCollector_loop results expectedResults (collected + 1)
                  (int_add totalDuration (Duration result)))
        as [[c t] out].
      cbn [fst snd] in *. destruct IH as (IH1 & IH2 & IH3).
      set (k' := Z.min (Z.of_nat (length results))
                       (Z.max 1 (expectedResults - (collected + 1)))) in *.
      assert (Hk : Z.min (Z.succ (Z.of_nat (length results)))
                         (Z.max 1 (expectedResults - collected)) = k' + 1)
        by (unfold k'; lia).
      rewrite Hk. split; [lia |]. split.
      * replace (Z.to_nat (k' + 1)) with (S (Z.to_nat k')) by (unfold k'; lia).
        cbn [take map Collections.sum_loop]. exact IH2.
      * cbn [length]. lia.
Qed.

End CollectorFacts.

(** X22: [resultCollector] panics with a division by zero when the
    results channel is closed before any result has come; otherwise it
    collects the first [k] results, where [k] is the smaller of the
    number of results sent and of [expectedResults], and at least 1;
    it prints a line for each and a summary with [k] and with the sum of
    their durations divided by [k], in the arithmetic of int64. *)
Theorem resultCollector_contract (results : list Collector.Result)
  (expectedResults : Z) :
  Z.of_nat (length results) <= Go.max_int ->
  let k := Z.min (Z.of_nat (length results)) (Z.max 1 expectedResults) in
  let total :=
    Collections.sum (map Collector.Duration (take (Z.to_nat k) results)) in
  (results = [] ->
   Collector.resultCollector results expectedResults
   = Go.Panics "runtime error: integer divide by zero") /\
  (results <> [] ->
   exists out,
     Collector.resultCollector results expectedResults
     = Go.Returns
         (out ++ [Collector.Printf ("📊 Collected %d results, average duration: %v" ++ Collector.newline)%string
                    [Collector.Int k;
                     Collector.Dur (Go.wrap (Z.quot total k))]]) /\
     Z.of_nat (length out) = k).
Proof.
  intros Hlen. cbv zeta. split.
  - intros ->. reflexivity.
  - intros Hne.
    pose proof (resultCollector_loop_spec results expectedResults 0 0
                  ltac:(lia) ltac:(lia)) as Hspec.
    cbv zeta in Hspec. rewrite Z.sub_0_r, Z.add_0_l in Hspec.
    unfold Collector.resultCollector.
    destruct (Collector.resultCollector_loop results expectedResults 0 0)
      as [[c t] out].
    cbn [fst snd] in Hspec. destruct Hspec as (Hc & Ht & Hout).
    assert (Hk : c <> 0).
    { destruct results; [contradiction |]. simpl length in Hc.
      rewrite Nat2Z.inj_succ in Hc. lia. }
    unfold Go.int_div. destruct (Z.eqb_spec c 0) as [? | _]; [contradiction |].
    exists out. subst c t. split; [reflexivity | exact Hout].
Qed.

Lemma resultCollector_contract_witness :
  let results := [Collector.mkResult 1 "processed-data-1" 300;
                  Collector.mkResult 2 "processed-data-2" 500;
                  Collector.mkResult 3 "processed-data-3" 700] in
  Z.of_nat (length results) <= Go.max_int /\
  results <> [] /\
  exists out,
    Collector.resultCollector results 2
    = Go.Returns
        (out ++ [Collector.Printf ("📊 Collected %d results, average duration: %v" ++ Collector.newline)%string
                   [Collector.Int 2; Collector.Dur 400]]) /\
    Z.of_nat (length out) = 2.
Proof.
  intros results.
  assert (Hlen : Z.of_nat (length results) <= Go.max_int)
    by (vm_compute; discriminate).
  assert (Hne : results <> []) by discriminate.
  split; [exact Hlen |]. split; [exact Hne |].
  exact (proj2 (resultCollector_contract results 2 Hlen) Hne).
Defined.

(** ** The worker pools *)

Section PoolFacts.
Import Go Pool.

Variable process : Z -> Z.
Variable capacity : nat.
Variable numJobs : nat.

Local Abbreviation accounted := (Pool.accounted process).

Lemma in_hand_insert (ws : list worker_state) (w : nat) (old new : worker_state) :
  ws !! w = Some old ->
  in_hand (<[w := new]> ws)
  = in_hand (take w ws) ++ in_hand [new] ++ in_hand (drop (S w) ws) /\
  in_hand ws
  = in_hand (take w ws) ++ in_hand [old] ++ in_hand (drop (S w) ws).
Proof.
  intros Hw.
  pose proof (lookup_lt_Some _ _ _ Hw) as Hlt.
  assert (Happ : forall x l l',
    in_hand (l ++ x :: l') = in_hand l ++ in_hand [x] ++ in_hand l').
  { intros x l l'. unfold in_hand. rewrite bind_app, bind_cons.
    simpl. rewrite app_nil_r. reflexivity. }
  split.
  - rewrite insert_take_drop by exact Hlt. apply Happ.
  - rewrite <- Happ, take_drop_middle by exact Hw. reflexivity.
Qed.

Lemma step_accounted (all_jobs : list Z) (a : actor) (s s' : state) :
  accounted all_jobs s ->
  step process capacity numJobs a s = Some s' ->
  accounted all_jobs s'.
Proof.
  unfold Pool.accounted. intros Hacc Hstep. destruct a as [| w]; simpl in Hstep.
  - unfold main_step in Hstep.
    destruct (unsent s) as [| j rest] eqn:Hu.
    + destruct (jobs_closed s); simpl in Hstep.
      * destruct (length (collected s) <? numJobs)%nat; [| discriminate].
        destruct (results s) as [| r rs] eqn:Hr; [discriminate |].
        injection Hstep as <-. simpl in *.
        rewrite <- Hacc, <- !app_assoc. reflexivity.
      * injection Hstep as <-. simpl in *. exact Hacc.
    + destruct (length (jobs s) <? capacity)%nat; [| discriminate].
      injection Hstep as <-. simpl in *.
      rewrite <- Hacc, map_app. simpl.
      rewrite <- !app_assoc. reflexivity.
  - unfold worker_step in Hstep.
    destruct (workers s !! w) as [[| job |] |] eqn:Hw; try discriminate.
    + destruct (in_hand_insert (workers s) w Idle (Busy
        match jobs s with j :: _ => j | [] => 0 end) Hw) as [Hnew Hold].
      destruct (jobs s) as [| j rest] eqn:Hj.
      * destruct (jobs_closed s); [| discriminate].
        injection Hstep as <-. simpl in *.
        destruct (in_hand_insert (workers s) w Idle Exited Hw) as [Hn Ho].
        rewrite Hn, <- Hacc, Ho. reflexivity.
      * injection Hstep as <-. simpl in *.
        rewrite Hnew, <- Hacc, Hold. simpl.
        rewrite !map_app. simpl.
        apply Permutation_app_head, Permutation_app_head.
        rewrite <- !app_assoc. simpl.
        apply Permutation_app_head.
        apply Permutation_middle.
    + destruct (length (results s) <? capacity)%nat; [| discriminate].
      injection Hstep as <-. simpl in *.
      destruct (in_hand_insert (workers s) w (Busy job) Idle Hw) as [Hn Ho].
      rewrite Hn, <- Hacc, Ho. simpl. rewrite !map_app. simpl.
      apply Permutation_app_head. rewrite <- !app_assoc. simpl.
      rewrite (Permutation_middle _ _ (process job)).
      reflexivity.
Qed.

Lemma run_accounted (all_jobs : list Z) (schedule : list actor) (s s' : state) :
  accounted all_jobs s ->
  run process capacity numJobs schedule s = Some s' ->
  accounted all_jobs s'.
Proof.
  revert s. induction schedule as [| a schedule IH]; intros s Hacc Hrun;
    simpl in Hrun.
  - injection Hrun as <-. exact Hacc.
  - destruct (step process capacity numJobs a s) as [s1 |] eqn:Hstep;
      simpl in Hrun; [| discriminate].
    apply (IH s1); [eapply step_accounted; eauto | exact Hrun].
Qed.

Lemma init_accounted (numWorkers : nat) (all_jobs : list Z) :
  accounted all_jobs (init numWorkers all_jobs).
Proof.
  unfold Pool.accounted, init, in_hand. simpl.
  assert (H : replicate numWorkers Idle
              ≫= (fun w => match w with Busy job => [job] | _ => [] end)
              = ([] : list Z)).
  { induction numWorkers as [| n IH]; [reflexivity | exact IH]. }
  rewrite H. reflexivity.
Qed.

End PoolFacts.

Section PoolResults.
Import Go Pool.

Lemma pool_collected (process : Z -> Z) (capacity numJobs numWorkers : nat)
  (all_jobs : list Z) (schedule : list actor) (s : state) :
  run process capacity numJobs schedule (init numWorkers all_jobs) = Some s ->
  collected s ⊆+ map process all_jobs /\
  (length (collected s) = length all_jobs ->
   collected s ≡ₚ map process all_jobs).
Proof.
  intros Hrun.
  pose proof (run_accounted process capacity numJobs all_jobs schedule _ _
                (init_accounted process numWorkers all_jobs) Hrun) as Hacc.
  unfold accounted in Hacc. split.
  - rewrite <- Hacc. apply submseteq_inserts_r. reflexivity.
  - intros Hlen.
    pose proof (Permutation_length Hacc) as Hl.
    rewrite length_app, length_map in Hl.
    destruct (results s ++ map process (in_hand (workers s))
              ++ map process (jobs s) ++ map process (unsent s))
      as [| x rest] eqn:Hrest.
    + rewrite app_nil_r in Hacc. exact Hacc.
    + simpl in Hl. lia.
Qed.

End PoolResults.

(** X23: in the two worker pools ([WorkerPoolPattern] with 3 workers,
    the jobs 1 to 8 and [fibonacci]; [ChannelExamples] with 3 workers,
    the jobs 1 to 5 and [job * 2]), whatever the interleaving of the
    main goroutine and the workers, the results that the main goroutine
    has received are results of distinct jobs, and once it has received
    as many results as there are jobs they are the results of all the
    jobs, each once, in some order. *)
Theorem worker_pools_deliver (schedule : list Pool.actor) (s : Pool.state) :
  (Pool.WorkerPoolPattern schedule = Some s ->
   Pool.collected s ⊆+ [1; 1; 2; 3; 5; 8; 13; 21] /\
   (length (Pool.collected s) = 8%nat ->
    Pool.collected s ≡ₚ [1; 1; 2; 3; 5; 8; 13; 21])) /\
  (Pool.ChannelExamples schedule = Some s ->
   Pool.collected s ⊆+ [2; 4; 6; 8; 10] /\
   (length (Pool.collected s) = 5%nat ->
    Pool.collected s ≡ₚ [2; 4; 6; 8; 10])).
Proof.
  split; intros Hrun.
  - apply (pool_collected WorkerPool.fibonacci 8 8 3 (seqZ 1 8) schedule s Hrun).
  - apply (pool_collected (fun job => Go.int_mul job 2) 5 5 3 (seqZ 1 5)
             schedule s Hrun).
Qed.

Lemma worker_pools_deliver_witness :
  let schedule :=
    replicate 9 Pool.Main
    ++ [Pool.Worker 0; Pool.Worker 1; Pool.Worker 2;
        Pool.Worker 2; Pool.Worker 1; Pool.Worker 0]
    ++ concat (replicate 5 [Pool.Worker 1; Pool.Worker 1])
    ++ replicate 8 Pool.Main in
  exists s,
    Pool.WorkerPoolPattern schedule = Some s /\
    Pool.collected s = [2; 1; 1; 3; 5; 8; 13; 21] /\
    Pool.collected s ≡ₚ [1; 1; 2; 3; 5; 8; 13; 21].
Proof.
  intros schedule.
  assert (H : exists s, Pool.WorkerPoolPattern schedule = Some s /\
                        Pool.collected s = [2; 1; 1; 3; 5; 8; 13; 21]).
  { vm_compute. eexists. split; reflexivity. }
  destruct H as (s & Hrun & Hc). exists s.
  split; [exact Hrun |]. split; [exact Hc |].
  apply (proj1 (worker_pools_deliver schedule s) Hrun).
  rewrite Hc. reflexivity.
Defined.

(** ** The menu at the end of the input, and validateMenuChoice *)

(** X24: [validateMenuChoice] returns a nil error if and only if [Atoi]
    accepts the input with a number from 0 to 7, and then it returns
    that number; with every error it returns -1. *)
Theorem validateMenuChoice_contract (Atoi : string -> Z * Go.error)
  (input : string) :
  let choice := fst (MenuChoice.validateMenuChoice Atoi input) in
  let err := snd (MenuChoice.validateMenuChoice Atoi input) in
  (err = Go.nil
   <-> snd (Atoi input) = Go.nil /\ 0 <= fst (Atoi input) <= 7) /\
  (if decide (err = Go.nil)
   then choice = fst (Atoi input) /\ 0 <= choice <= 7
   else choice = -1).
Proof.
  cbv zeta. unfold MenuChoice.validateMenuChoice.
  destruct (Atoi input) as [n [msg |]]; cbn [fst snd].
  - split; [split; [discriminate | intros [H _]; discriminate H] |].
    destruct (decide _) as [H | _]; [discriminate H | reflexivity].
  - destruct (Z.ltb_spec n 0) as [H0 | H0]; cbn [orb fst snd].
    + split; [split; [discriminate | intros [_ H]; lia] |].
      destruct (decide _) as [H | _]; [discriminate H | reflexivity].
    + destruct (Z.ltb_spec 7 n) as [H7 | H7]; cbn [fst snd].
      * split; [split; [discriminate | intros [_ H]; lia] |].
        destruct (decide _) as [H | _]; [discriminate H | reflexivity].
      * split; [split; [intros _; split; [reflexivity | lia] | reflexivity] |].
        destruct (decide _) as [_ | H]; [split; [reflexivity | lia] |].
        exfalso. apply H. reflexivity.
Qed.

(** X25: at the end of the input the menu loop does not end. Every read
    gives the empty string, which (trimmed to itself) is not a choice of
    the menu; so each turn writes the menu, the prompt, the message of an
    invalid choice and the request to press Enter, runs no module, and
    goes on: for no number of turns has the loop ended. *)
Theorem menu_loop_end_of_input (TrimSpace : string -> string)
  (module_output : Menu.module -> Menu.world -> list string)
  (module_input : Menu.module -> Menu.world -> list string)
  (turns : nat) (out : list string) :
  TrimSpace EmptyString = EmptyString ->
  Menu.menu_loop TrimSpace module_output module_input turns (Menu.World [] out)
  = None /\
  Menu.iteration TrimSpace module_output module_input (Menu.World [] out)
  = Menu.Continue
      (Menu.World []
         (out ++ Menu.menu_text
              ++ [Menu.prompt; Menu.newline;
                  (Menu.invalid_choice ++ Menu.newline)%string;
                  (Menu.press_enter ++ Menu.newline)%string])).
Proof.
  intros Htrim.
  assert (Hinv : EmptyString ∉ Menu.offered).
  { unfold Menu.offered. rewrite !not_elem_of_cons.
    repeat split; try discriminate. apply not_elem_of_nil. }
  assert (Hit : forall o,
    Menu.iteration TrimSpace module_output module_input (Menu.World [] o)
    = Menu.Continue
        (Menu.World []
           (o ++ Menu.menu_text
              ++ [Menu.prompt; Menu.newline;
                  (Menu.invalid_choice ++ Menu.newline)%string;
                  (Menu.press_enter ++ Menu.newline)%string]))).
  { intros o. rewrite iteration_unfold. cbv zeta.
    unfold Menu.next_choice, Menu.ReadLine. cbn [Menu.stdin fst tail].
    rewrite Htrim. change (String.eqb "" "0") with false. cbv iota.
    rewrite (executeChoice_invalid module_output module_input "" _ Hinv).
    unfold Menu.Println, Menu.Print, Menu.ReadLine.
    cbn [Menu.stdin Menu.stdout snd]. rewrite <- !app_assoc. reflexivity. }
  split; [| apply Hit].
  revert out. induction turns as [| turns IH]; intros out; [reflexivity |].
  cbn [Menu.menu_loop]. rewrite Hit. apply IH.
Qed.

Lemma menu_loop_end_of_input_witness :
  Menu.menu_loop (fun s => s) (fun _ _ => []) (fun _ _ => []) 1000
    (Menu.World [] []) = None.
Proof.
  exact (proj1 (menu_loop_end_of_input (fun s => s) (fun _ _ => [])
                  (fun _ _ => []) 1000 [] eq_refl)).
Defined.
